(** * Host-side stream synchronisation and frame fusion of
      gen2-deeplabv3_depth/main.py

    A shallow embedding of the pure host-side functions of the script
    ([HostSync.add_msg], [crop_to_square], [decode_deeplabv3p],
    [get_multiplier], [FPSHandler], the polling loop and the cutout
    composition), and the properties of the specification stated over it. *)

From stdpp Require Import gmap strings list fin_maps.
From Stdlib Require Import ZArith QArith Qcanon Lia.

Local Open Scope Z_scope.

(** ** Messages

    A device message is an opaque object carrying a capture timestamp.
    [msg_id] stands for the identity of the Python object (the device
    messages define no [__eq__], so [==] on them is identity);
    [getTimestamp] is the [timedelta] returned by [msg.getTimestamp()],
    counted in microseconds, the resolution of [timedelta]. *)

Record Msg := mkMsg { msg_id : nat; getTimestamp : Z }.

Global Instance Msg_eq_dec : EqDecision Msg.
Proof. solve_decision. Defined.

(** [timedelta(milliseconds=n)] in microseconds. *)
Definition milliseconds (n : Z) : Z := n * 1000.

Module HostSync.

(** *** State: [self.arrays], a dict from stream name to a list of
    entries [{'msg': msg}].  An entry is compared by [==] through its only
    value, so the entry is modelled by the message it wraps. *)

Record t := mk { arrays : gmap string (list Msg) }.

(** [HostSync.__init__] *)
Definition init : t := {| arrays := ∅ |}.

(** [time_diff < timedelta(milliseconds=33)] for an entry of a buffer. *)
Definition in_sync (ts : Z) (obj : Msg) : bool :=
  bool_decide (Z.abs (getTimestamp obj - ts) < milliseconds 33).

(** The nested function [remove(t1, t2)]. *)
Definition remove (t1 t2 : Z) : bool :=
  bool_decide (milliseconds 500 < Z.abs (t1 - t2)).

(** The inner loop of the search: the first entry of [arr], oldest first,
    that is in sync with [ts]; the loop [break]s there. *)
Definition first_synced (ts : Z) (arr : list Msg) : option Msg :=
  snd <$> list_find (λ obj, in_sync ts obj = true) arr.

(** [list.remove(x)]: deletes the first element equal to [x]. *)
Fixpoint list_remove (x : Msg) (arr : list Msg) : list Msg :=
  match arr with
  | [] => []
  | y :: arr' => if decide (y = x) then arr' else y :: list_remove x arr'
  end.

(** The pruning loop [for i, obj in enumerate(arr)] with [arr.remove(obj)]
    in its body.  The list iterator holds an index [i] into the list being
    mutated: each round reads [arr[i]] from the current list, stops when
    [i] is past its end, and advances [i] by one whether or not an element
    was removed.  [fuel] bounds the number of rounds. *)
Fixpoint prune_from (fuel : nat) (ts : Z) (i : nat) (arr : list Msg) : list Msg :=
  match fuel with
  | O => arr
  | S fuel' =>
      match arr !! i with
      | None => arr
      | Some obj =>
          if remove (getTimestamp obj) ts
          then prune_from fuel' ts (S i) (list_remove obj arr)
          else arr
      end
  end.

(** One buffer pruned: the loop started at index 0; a round that does not
    stop removes an element, so [length arr] rounds always suffice
    (see [prune_from_fuel]). *)
Definition prune (ts : Z) (arr : list Msg) : list Msg :=
  prune_from (length arr) ts 0%nat arr.

(** The first two statements of [add_msg]: create the buffer if the name
    is new, append the entry. *)
Definition append_msg (s : t) (name : string) (msg : Msg) : gmap string (list Msg) :=
  <[name := default [] (arrays s !! name) ++ [msg]]> (arrays s).

(** The dict [synced] after the search over all buffers. *)
Definition find_synced (ts : Z) (arrs : gmap string (list Msg)) : gmap string Msg :=
  omap (first_synced ts) arrs.

(** [add_msg(name, msg)]: the new state and the result, [None] for the
    [False] the method returns when there is no complete match. *)
Definition add_msg (s : t) (name : string) (msg : Msg) : t * option (gmap string Msg) :=
  let arrs := append_msg s name msg in
  let ts := getTimestamp msg in
  let synced := find_synced ts arrs in
  if decide (size synced = 3%nat)
  then ({| arrays := prune ts <$> arrs |}, Some synced)
  else ({| arrays := arrs |}, None).

(** The buffer of a stream, empty when the name has none. *)
Definition buffer (arrs : gmap string (list Msg)) (name : string) : list Msg :=
  default [] (arrs !! name).

(** A sequence of calls, the results dropped. *)
Definition run (calls : list (string * Msg)) (s : t) : t :=
  foldl (λ s c, fst (add_msg s c.1 c.2)) s calls.

(** The results of a sequence of calls, in call order. *)
Fixpoint results (calls : list (string * Msg)) (s : t) : list (option (gmap string Msg)) :=
  match calls with
  | [] => []
  | c :: calls' =>
      let r := add_msg s c.1 c.2 in r.2 :: results calls' r.1
  end.

(** The streams the loop feeds the synchroniser with. *)
Definition stream_names : gset string := {["color"; "depth"; "nn"]}.

(** The pruning step as the specification words it: scanning from the
    oldest entry, the entries more than 500 ms away from [ts] are removed
    up to the first entry within the window. *)
Fixpoint prune_spec (ts : Z) (arr : list Msg) : list Msg :=
  match arr with
  | [] => []
  | obj :: arr' =>
      if remove (getTimestamp obj) ts then prune_spec ts arr' else arr
  end.

(** What the loop of the code computes on a buffer without repeated
    objects: while the entry it reads is stale it removes that entry and,
    the index having moved on, passes over the next one. *)
Fixpoint prune_alternate (ts : Z) (arr : list Msg) : list Msg :=
  match arr with
  | [] => []
  | obj :: arr' =>
      if remove (getTimestamp obj) ts
      then match arr' with
           | [] => []
           | passed :: arr'' => passed :: prune_alternate ts arr''
           end
      else arr
  end.

End HostSync.

(** Messages of the scenarios below, named by stream and capture time in
    milliseconds. *)
Module Sample.

Definition color_0 : Msg := mkMsg 10 (milliseconds 0).
Definition color_10 : Msg := mkMsg 11 (milliseconds 10).
Definition color_100 : Msg := mkMsg 1 (milliseconds 100).
Definition depth_120 : Msg := mkMsg 2 (milliseconds 120).
Definition nn_115 : Msg := mkMsg 3 (milliseconds 115).
Definition color_118 : Msg := mkMsg 4 (milliseconds 118).
Definition depth_150 : Msg := mkMsg 5 (milliseconds 150).
Definition color_700 : Msg := mkMsg 12 (milliseconds 700).
Definition depth_700 : Msg := mkMsg 13 (milliseconds 700).
Definition nn_700 : Msg := mkMsg 14 (milliseconds 700).

(** Two old colour frames, then one frame of each stream at 700 ms. *)
Definition stale_calls : list (string * Msg) :=
  [("color", color_0); ("color", color_10); ("color", color_700);
   ("depth", depth_700); ("nn", nn_700)].

(** The scenario of the specification: one frame of each stream around
    100 ms. *)
Definition triple_calls : list (string * Msg) :=
  [("color", color_100); ("depth", depth_120); ("nn", nn_115)].

End Sample.

(** ** Frame-rate tracker

    [time.time()] is read from the environment, so each reading is an
    argument.  Readings are exact rationals; the rounding of floating-point
    arithmetic is not modelled.  [fps] returns [None] where Python raises
    [ZeroDivisionError]. *)

Module FPSHandler.

Record t := mk { timestamp : Qc; start : Qc; frame_cnt : nat }.

(** [__init__]: [timestamp] is read first, [start] second. *)
Definition init (now1 now2 : Qc) : t :=
  {| timestamp := now1; start := now2; frame_cnt := 0 |}.

Definition next_iter (s : t) (now : Qc) : t :=
  {| timestamp := now; start := start s; frame_cnt := S (frame_cnt s) |}.

Definition fps (s : t) : option Qc :=
  let elapsed := (timestamp s - start s)%Qc in
  if decide (elapsed = 0%Qc) then None
  else Some (Qc_of_Z (Z.of_nat (frame_cnt s)) / elapsed)%Qc.

End FPSHandler.

(** ** Geometric normaliser *)

Section Frames.
Context {A : Type}.

(** A frame is a list of rows of pixels; [frame.shape[0]] is the number
    of rows and [frame.shape[1]] the length of a row. *)
Definition shape0 (frame : list (list A)) : Z := Z.of_nat (length frame).
Definition shape1 (frame : list (list A)) : Z := Z.of_nat (length (hd [] frame)).

Definition rectangular (h w : Z) (frame : list (list A)) : Prop :=
  shape0 frame = h ∧ Forall (λ row, Z.of_nat (length row) = w) frame.

(** A slice bound as Python normalises it: a negative bound counts from
    the end, and the result is clamped to the sequence. *)
Definition slice_bound (len i : Z) : Z :=
  if decide (i < 0) then Z.max (i + len) 0 else Z.min i len.

(** [l[start:stop]] *)
Definition py_slice {B : Type} (start stop : Z) (l : list B) : list B :=
  let len := Z.of_nat (length l) in
  let lo := slice_bound len start in
  let hi := slice_bound len stop in
  take (Z.to_nat (hi - lo)) (drop (Z.to_nat lo) l).

(** [int((width-height) / 2)]: [int] truncates towards zero. *)
Definition crop_delta (height width : Z) : Z := Z.quot (width - height) 2.

Definition crop_to_square (frame : list (list A)) : list (list A) :=
  let height := shape0 frame in
  let width := shape1 frame in
  let delta := crop_delta height width in
  py_slice delta (width - delta) <$> py_slice 0 height frame.

End Frames.

(** [TARGET_SHAPE = (400,400)], the size every panel is resized to. *)
Definition TARGET_SHAPE : Z * Z := (400, 400).

(** ** Segmentation decoder *)

(** [np.take(table, idx, axis=0)] at one index: negative indices count
    from the end, anything else out of range raises. *)
Definition np_take (table : list (list Z)) (idx : Z) : option (list Z) :=
  let len := Z.of_nat (length table) in
  if decide (0 <= idx < len) then table !! Z.to_nat idx
  else if decide (- len <= idx < 0) then table !! Z.to_nat (idx + len)
  else None.

(** Rows of [n] elements cut from a flat tensor. *)
Fixpoint chunks (rows n : nat) (flat : list Z) : list (list Z) :=
  match rows with
  | O => []
  | S rows' => take n flat :: chunks rows' n (drop n flat)
  end.

(** [tensor.reshape(n, n)], which raises unless the tensor has [n*n]
    elements. *)
Definition reshape (n : Z) (flat : list Z) : option (list (list Z)) :=
  if decide (0 <= n ∧ Z.of_nat (length flat) = n * n)
  then Some (chunks (Z.to_nat n) (Z.to_nat n) flat)
  else None.

Definition class_colors : list (list Z) := [[0; 0; 0]; [0; 255; 0]].
Definition class_binary : list (list Z) := [[0]; [1]].

Section Pipeline.

(** [args.nn_shape] *)
Variable nn_shape : Z.

(** The table [cv2.applyColorMap(np.arange(256), cv2.COLORMAP_JET)],
    which belongs to OpenCV: the colour of each of the 256 levels. *)
Variable COLORMAP_JET : Z → list Z.

(** [cv2.resize(_, TARGET_SHAPE)] on the one-channel mask, which belongs
    to OpenCV; it returns a two-dimensional array. *)
Variable cv2_resize : list (list (list Z)) → list (list Z).

Definition decode_deeplabv3p (output_tensor : list Z) : option (list (list (list Z))) :=
  output ← reshape nn_shape output_tensor;
  mapM (mapM (np_take class_colors)) output.

Definition get_multiplier (output_tensor : list Z) : option (list (list (list Z))) :=
  output ← reshape nn_shape output_tensor;
  mapM (mapM (np_take class_binary)) output.

(** [jet_custom]: the JET table with entry 0 overwritten by black. *)
Definition jet_custom : list (list Z) :=
  <[0%nat := [0; 0; 0]]> (COLORMAP_JET <$> seqZ 0 256).

(** [cv2.applyColorMap(src, userColor)]: a table lookup at every pixel of
    an 8-bit image. *)
Definition applyColorMap (src : list (list Z)) (userColor : list (list Z)) : list (list (list Z)) :=
  (λ row : list Z, (λ v : Z, default [] (userColor !! Z.to_nat v)) <$> row) <$> src.

(** Product of two [uint8] arrays of the same shape: elementwise,
    modulo 256. *)
Definition mul_uint8 (a b : list (list Z)) : list (list Z) :=
  zip_with (zip_with (λ x y, (x * y) mod 256)) a b.

(** Lines 219-222 of the loop body: the cutout panel from the tensor and
    the resized disparity frame. *)
Definition cutout (lay1 : list Z) (disp_frame : list (list Z)) : option (list (list (list Z))) :=
  multiplier ← get_multiplier lay1;
  let multiplier := cv2_resize multiplier in
  let depth_overlay := mul_uint8 disp_frame multiplier in
  Some (applyColorMap depth_overlay jet_custom).

End Pipeline.

(** The value of a two-dimensional array at a position. *)
Definition at2 {B : Type} (img : list (list B)) (x y : nat) : option B :=
  img !! x ≫= (.!! y).

(** ** Polling loop *)

Module Loop.

(** The three output queues, oldest message first, and the synchroniser.
    [has()] holds of a non-empty queue and [get()] takes its head. *)
Record t := mk {
  q_color : list Msg;
  q_disp : list Msg;
  q_nn : list Msg;
  sync : HostSync.t
}.

(** One statement [if q.has(): msgs = msgs or sync.add_msg(name, q.get())].
    [or] evaluates its right operand, and with it [q.get()], only when
    [msgs] is still [False]. *)
Definition poll (name : string) (q : list Msg)
    (st : HostSync.t * option (gmap string Msg))
    : list Msg * (HostSync.t * option (gmap string Msg)) :=
  match q with
  | [] => (q, st)
  | m :: q' =>
      match st.2 with
      | Some synced => (q, st)
      | None => (q', HostSync.add_msg st.1 name m)
      end
  end.

(** The head of one iteration of [while True]: the state after the three
    polls and the value of [msgs]. *)
Definition iteration (l : t) : t * option (gmap string Msg) :=
  let '(qc, st1) := poll "color" (q_color l) (sync l, None) in
  let '(qd, st2) := poll "depth" (q_disp l) st1 in
  let '(qn, st3) := poll "nn" (q_nn l) st2 in
  ({| q_color := qc; q_disp := qd; q_nn := qn; sync := st3.1 |}, st3.2).

End Loop.

(** * Properties *)

(** ** The synchroniser *)

Section HostSyncFacts.
Import HostSync.

Implicit Types (arr : list Msg) (obj m : Msg) (ts : Z) (s : HostSync.t).

Lemma in_sync_spec ts m :
  in_sync ts m = true ↔ Z.abs (getTimestamp m - ts) < 33000.
Proof. unfold in_sync, milliseconds. rewrite bool_decide_eq_true. lia. Qed.

Lemma remove_spec t1 t2 : remove t1 t2 = true ↔ 500000 < Z.abs (t1 - t2).
Proof. unfold remove, milliseconds. rewrite bool_decide_eq_true. lia. Qed.

Lemma first_synced_Some ts arr m :
  first_synced ts arr = Some m → m ∈ arr ∧ in_sync ts m = true.
Proof.
  unfold first_synced. intros H.
  destruct (list_find _ arr) as [[i x]|] eqn:E; simplify_eq/=.
  apply list_find_Some in E as (Hi & HP & _).
  split; [by eapply list_elem_of_lookup_2 | done].
Qed.

Lemma first_synced_is_Some ts arr m :
  m ∈ arr → in_sync ts m = true → is_Some (first_synced ts arr).
Proof.
  intros Hin HP. unfold first_synced.
  destruct (list_find_elem_of (λ obj, in_sync ts obj = true) arr m Hin HP)
    as [[i x] ->]. by eexists.
Qed.

(** *** [list.remove] *)

Lemma list_remove_length x arr :
  x ∈ arr → S (length (list_remove x arr)) = length arr.
Proof.
  induction arr as [|y arr IH]; intros Hin; [by apply elem_of_nil in Hin|].
  simpl. case_decide as Hy; [done|]. simpl. f_equal. apply IH.
  apply elem_of_cons in Hin as [->|]; [done|assumption].
Qed.

Lemma list_remove_filter (P : Msg → Prop) `{∀ x, Decision (P x)} x arr :
  ¬ P x → filter P (list_remove x arr) = filter P arr.
Proof.
  intros HP. induction arr as [|y arr IH]; [done|].
  simpl. case_decide as Hy.
  - subst y. by rewrite filter_cons_False.
  - rewrite !filter_cons. by rewrite IH.
Qed.


(** *** The pruning loop *)

(** The loop ends within [length arr - i] rounds: more fuel changes
    nothing. *)
Lemma prune_from_fuel ts fuel1 fuel2 i arr :
  (length arr - i ≤ fuel1)%nat → (length arr - i ≤ fuel2)%nat →
  prune_from fuel1 ts i arr = prune_from fuel2 ts i arr.
Proof.
  revert fuel2 i arr.
  induction fuel1 as [|fuel1 IH]; intros fuel2 i arr H1 H2.
  - assert (arr !! i = None) as Hi by (apply lookup_ge_None; lia).
    destruct fuel2; simpl; [done|by rewrite Hi].
  - simpl. destruct (arr !! i) as [obj|] eqn:Hi.
    + pose proof (lookup_lt_Some _ _ _ Hi) as Hlt.
      assert (obj ∈ arr) as Hin by (by eapply list_elem_of_lookup_2).
      pose proof (list_remove_length _ _ Hin) as Hlen.
      destruct fuel2 as [|fuel2]; [lia|]. simpl. rewrite Hi.
      destruct (remove _ _); [|done]. apply IH; lia.
    + destruct fuel2; simpl; [done|by rewrite Hi].
Qed.

(** Only entries that [remove] selects leave a buffer: the others keep
    their places relative to each other, duplicates included. *)
Lemma prune_from_keeps ts fuel i arr :
  filter (λ m, remove (getTimestamp m) ts = false) (prune_from fuel ts i arr)
  = filter (λ m, remove (getTimestamp m) ts = false) arr.
Proof.
  revert i arr. induction fuel as [|fuel IH]; intros i arr; [done|].
  simpl. destruct (arr !! i) as [obj|]; [|done].
  destruct (remove (getTimestamp obj) ts) eqn:Hr; [|done].
  rewrite IH. apply list_remove_filter. by rewrite Hr.
Qed.


Lemma prune_keeps_elem ts arr m :
  m ∈ arr → remove (getTimestamp m) ts = false → m ∈ prune ts arr.
Proof.
  intros Hin Hr.
  assert (m ∈ filter (λ m, remove (getTimestamp m) ts = false) (prune ts arr)) as H.
  { unfold prune. rewrite prune_from_keeps. by apply list_elem_of_filter. }
  by apply list_elem_of_filter in H as [_ ?].
Qed.

(** *** [add_msg] *)

Lemma buffer_append s name msg n :
  buffer (append_msg s name msg) n
  = if decide (name = n) then buffer (arrays s) n ++ [msg] else buffer (arrays s) n.
Proof.
  unfold buffer, append_msg. rewrite lookup_insert.
  case_decide; by simplify_eq/=.
Qed.

Lemma dom_append s name msg :
  dom (append_msg s name msg) = {[name]} ∪ dom (arrays s).
Proof. unfold append_msg. by rewrite dom_insert_L. Qed.

(** The two outcomes of a call. *)
Lemma add_msg_cases s name msg :
  let arrs := append_msg s name msg in
  let synced := find_synced (getTimestamp msg) arrs in
  (size synced = 3%nat ∧
   add_msg s name msg = ({| arrays := prune (getTimestamp msg) <$> arrs |}, Some synced))
  ∨ (size synced ≠ 3%nat ∧ add_msg s name msg = ({| arrays := arrs |}, None)).
Proof. unfold add_msg. simpl. case_decide; [left|right]; done. Qed.

Lemma dom_add_msg s name msg :
  dom (arrays (add_msg s name msg).1) = {[name]} ∪ dom (arrays s).
Proof.
  destruct (add_msg_cases s name msg) as [[_ ->]|[_ ->]]; simpl.
  - by rewrite dom_fmap_L, dom_append.
  - apply dom_append.
Qed.

Lemma buffer_prune ts (arrs : gmap string (list Msg)) n :
  buffer (prune ts <$> arrs) n = prune ts (buffer arrs n).
Proof. unfold buffer. rewrite lookup_fmap. by destruct (arrs !! n). Qed.


Lemma find_synced_lookup ts (arrs : gmap string (list Msg)) n :
  find_synced ts arrs !! n = arrs !! n ≫= first_synced ts.
Proof. unfold find_synced. apply lookup_omap. Qed.

Lemma find_synced_Some ts (arrs : gmap string (list Msg)) n m :
  find_synced ts arrs !! n = Some m →
  m ∈ buffer arrs n ∧ in_sync ts m = true.
Proof.
  rewrite find_synced_lookup. unfold buffer.
  destruct (arrs !! n) as [arr|]; simpl; [|done].
  apply first_synced_Some.
Qed.

End HostSyncFacts.

(** ** Tolerance matching *)

Section Matching.
Import HostSync.

Lemma remove_false_of_close t1 t2 :
  Z.abs (t1 - t2) < 33000 → remove t1 t2 = false.
Proof.
  intros H. destruct (remove t1 t2) eqn:E; [|done].
  apply remove_spec in E. lia.
Qed.

Lemma buffer_append_new s name msg : msg ∈ buffer (append_msg s name msg) name.
Proof.
  rewrite buffer_append, decide_True by done.
  apply elem_of_app. right. apply list_elem_of_here.
Qed.









End Matching.


(** ** Pruning *)

Section Pruning.
Import HostSync.

(** C2. Pruning on a successful synchronisation.  Two colour frames at 0
    and 10 ms are buffered, then one frame of each stream arrives at
    700 ms.  The last call returns a triple, and both old frames are a
    stale prefix of the colour buffer, which the pruning step as the
    specification words it removes; the loop of the code removes the frame
    at 0 ms and leaves the frame at 10 ms, 690 ms away from the reference
    timestamp, in the buffer. *)
Theorem prune_skips_every_other_stale_entry :
  let s := run (take 4 Sample.stale_calls) init in
  let r := add_msg s "nn" Sample.nn_700 in
  let ts := getTimestamp Sample.nn_700 in
  is_Some r.2
  ∧ buffer (append_msg s "nn" Sample.nn_700) "color"
    = [Sample.color_0; Sample.color_10; Sample.color_700]
  ∧ remove (getTimestamp Sample.color_10) ts = true
  ∧ prune_spec ts [Sample.color_0; Sample.color_10; Sample.color_700]
    = [Sample.color_700]
  ∧ buffer (arrays r.1) "color" = [Sample.color_10; Sample.color_700].
Proof.
  cbv zeta. repeat split; try (vm_compute; reflexivity).
  vm_compute. by eexists.
Qed.

Lemma remove_false_iff (t1 t2 : Z) :
  Z.abs (t1 - t2) <= milliseconds 500 ↔ remove t1 t2 = false.
Proof.
  unfold milliseconds. destruct (remove t1 t2) eqn:E.
  - apply remove_spec in E. split; [lia|done].
  - split; [done|]. intros _.
    destruct (decide (Z.abs (t1 - t2) <= 500 * 1000)) as [|Hn]; [done|].
    assert (remove t1 t2 = true) as E'; [|congruence].
    apply remove_spec. lia.
Qed.

Lemma list_remove_app_fresh x (pre rest : list Msg) :
  x ∉ pre → list_remove x (pre ++ x :: rest) = pre ++ rest.
Proof.
  induction pre as [|y pre IH]; intros Hx; simpl.
  - by rewrite decide_True.
  - apply not_elem_of_cons in Hx as [Hne Hx].
    rewrite decide_False by done. f_equal. by apply IH.
Qed.

(** The loop on a buffer of distinct objects, started at the index that
    follows [pre]. *)
Lemma prune_from_alternate ts fuel (pre rest : list Msg) :
  NoDup (pre ++ rest) → (length rest ≤ fuel)%nat →
  prune_from fuel ts (length pre) (pre ++ rest)
  = pre ++ prune_alternate ts rest.
Proof.
  revert pre rest. induction fuel as [|fuel IH]; intros pre rest Hnd Hlen.
  - destruct rest; [done|simpl in Hlen; lia].
  - cbn [prune_from]. rewrite lookup_app_r, Nat.sub_diag by lia.
    destruct rest as [|x rest]; [done|]. cbn [lookup list_lookup prune_alternate].
    destruct (remove (getTimestamp x) ts); [|done].
    apply NoDup_app in Hnd as (Hpre & Hdisj & Hrest).
    rewrite list_remove_app_fresh
      by (intros Hin; apply (Hdisj x Hin); apply list_elem_of_here).
    apply NoDup_cons in Hrest as [Hx Hrest].
    destruct rest as [|y rest].
    + rewrite app_nil_r. destruct fuel; [done|].
      cbn [prune_from]. by rewrite lookup_ge_None_2 by lia.
    + replace (pre ++ y :: rest) with ((pre ++ [y]) ++ rest)
        by (by rewrite <- app_assoc).
      replace (S (length pre)) with (length (pre ++ [y]))
        by (rewrite length_app; simpl; lia).
      rewrite IH.
      * by rewrite <- app_assoc.
      * rewrite <- app_assoc. apply NoDup_app. split; [done|]. split; [|done].
        intros z Hz Hz'. apply (Hdisj z Hz). by apply list_elem_of_further.
      * simpl in Hlen. lia.
Qed.

(** X22. What the pruning loop removes.  On a buffer of distinct objects
    the loop removes the first, third, fifth ... entry of the stale
    prefix and keeps the entries in between, up to the first entry it
    reads that is not stale; everything from there on stays. *)
Lemma prune_alternate_spec ts (arr : list Msg) :
  NoDup arr → prune ts arr = prune_alternate ts arr.
Proof. intros Hnd. apply (prune_from_alternate ts (length arr) [] arr); done. Qed.

Lemma prune_alternate_spec_witness :
  let arr := [Sample.color_0; Sample.color_10; Sample.color_100; Sample.color_700] in
  NoDup arr
  ∧ prune (milliseconds 700) arr = prune_alternate (milliseconds 700) arr.
Proof.
  cbv zeta.
  assert (NoDup [Sample.color_0; Sample.color_10; Sample.color_100;
                 Sample.color_700]) as H
    by (apply (bool_decide_unpack _); vm_compute; exact I).
  split; [exact H|]. exact (prune_alternate_spec _ _ H).
Defined.

(** C3. No premature pruning.  After any sequence of calls, a further
    call leaves in every buffer exactly the entries that were there after
    the append and are at most 500 ms away from the timestamp of the
    message just added, in the same order and with the same
    multiplicity: the pruning step of a successful synchronisation evicts
    none of them. *)
Theorem prune_keeps_recent
    (calls : list (string * Msg)) (name : string) (msg : Msg) (n : string) :
  let s := run calls init in
  let ts := getTimestamp msg in
  let recent := λ m, Z.abs (getTimestamp m - ts) <= milliseconds 500 in
  filter recent (buffer (arrays (add_msg s name msg).1) n)
  = filter recent (buffer (append_msg s name msg) n).
Proof.
  cbv zeta. set (s := run calls init).
  destruct (add_msg_cases s name msg) as [[_ ->]|[_ ->]]; simpl; [|done].
  rewrite buffer_prune. unfold prune.
  set (arr := buffer (append_msg s name msg) n).
  rewrite (list_filter_iff _
             (λ m, remove (getTimestamp m) (getTimestamp msg) = false)
             (prune_from _ _ _ _)) by (intros m; apply remove_false_iff).
  rewrite prune_from_keeps.
  apply list_filter_iff. intros m. symmetry. apply remove_false_iff.
Qed.

End Pruning.

(** ** What a call does to the buffers *)

Section Ownership.
Import HostSync.

(** C9, as stated, fails.  In the scenario of the specification the third
    call returns a triple holding the colour frame of 100 ms; that frame
    is still in the colour buffer after the call, and a colour frame
    arriving at 118 ms gets a second triple holding the colour frame of
    100 ms again. *)
Lemma synced_messages_stay_buffered :
  let s := run (take 2 Sample.triple_calls) init in
  let r := add_msg s "nn" Sample.nn_115 in
  let r' := add_msg r.1 "color" Sample.color_118 in
  (r.2 ≫= (.!! "color")) = Some Sample.color_100
  ∧ buffer (arrays r.1) "color" = [Sample.color_100]
  ∧ (r'.2 ≫= (.!! "color")) = Some Sample.color_100.
Proof. cbv zeta. repeat split; vm_compute; reflexivity. Qed.

(** C9, amended.  When a call returns a triple, every message of the
    triple is still held in the buffer of its stream after the call. *)
Theorem synced_messages_remain s name msg s' synced n m :
  add_msg s name msg = (s', Some synced) →
  synced !! n = Some m →
  m ∈ buffer (arrays s') n.
Proof.
  intros Hr Hm.
  destruct (add_msg_cases s name msg) as [[_ E]|[_ E]];
    rewrite E in Hr; simplify_eq/=.
  apply find_synced_Some in Hm as [Hin Hs].
  rewrite buffer_prune. apply prune_keeps_elem; [done|].
  apply remove_false_of_close. by apply in_sync_spec.
Qed.

Lemma synced_messages_remain_witness :
  let s := run (take 2 Sample.triple_calls) init in
  let r := add_msg s "nn" Sample.nn_115 in
  add_msg s "nn" Sample.nn_115 = (r.1, Some (default ∅ r.2))
  ∧ default ∅ r.2 !! "depth" = Some Sample.depth_120
  ∧ Sample.depth_120 ∈ buffer (arrays r.1) "depth".
Proof.
  cbv zeta.
  assert (add_msg (run (take 2 Sample.triple_calls) init) "nn" Sample.nn_115
          = ((add_msg (run (take 2 Sample.triple_calls) init) "nn" Sample.nn_115).1,
             Some (default ∅ (add_msg (run (take 2 Sample.triple_calls) init)
                               "nn" Sample.nn_115).2))) as H1
    by (vm_compute; reflexivity).
  assert (default ∅ (add_msg (run (take 2 Sample.triple_calls) init)
                       "nn" Sample.nn_115).2 !! "depth"
          = Some Sample.depth_120) as H2 by (vm_compute; reflexivity).
  split; [exact H1|]. split; [exact H2|].
  exact (synced_messages_remain _ _ _ _ _ _ _ H1 H2).
Defined.

(** C10. A call that finds no complete match changes the state only by
    appending the new message at the end of the buffer of its stream:
    every other buffer, and the rest of that buffer, is as before. *)
Theorem add_msg_no_match_appends s name msg s' :
  add_msg s name msg = (s', None) →
  arrays s' = <[name := buffer (arrays s) name ++ [msg]]> (arrays s)
  ∧ ∀ n, buffer (arrays s') n
         = if decide (name = n) then buffer (arrays s) n ++ [msg]
           else buffer (arrays s) n.
Proof.
  intros Hr.
  destruct (add_msg_cases s name msg) as [[_ E]|[_ E]];
    rewrite E in Hr; simplify_eq/=.
  split; [done|]. intros n. apply buffer_append.
Qed.

Lemma add_msg_no_match_appends_witness :
  let s := run (take 1 Sample.triple_calls) init in
  add_msg s "depth" Sample.depth_120 = ((add_msg s "depth" Sample.depth_120).1, None)
  ∧ arrays (add_msg s "depth" Sample.depth_120).1
    = <["depth" := buffer (arrays s) "depth" ++ [Sample.depth_120]]> (arrays s)
  ∧ ∀ n, buffer (arrays (add_msg s "depth" Sample.depth_120).1) n
         = if decide ("depth" = n)
           then buffer (arrays s) n ++ [Sample.depth_120]
           else buffer (arrays s) n.
Proof.
  cbv zeta.
  assert (add_msg (run (take 1 Sample.triple_calls) init) "depth" Sample.depth_120
          = ((add_msg (run (take 1 Sample.triple_calls) init)
                "depth" Sample.depth_120).1, None)) as H1
    by (vm_compute; reflexivity).
  split; [exact H1|].
  exact (add_msg_no_match_appends _ _ _ _ H1).
Defined.

End Ownership.

(** ** The polling loop *)

Section Polling.
Import HostSync Loop.

(** C4, as stated, fails.  The synchroniser holds a depth frame of 120 ms
    and an inference result of 115 ms; the colour queue holds a frame of
    100 ms and the disparity queue a frame of 150 ms.  The colour frame
    completes a triple, and the disparity queue, although it reports
    data, is neither popped nor ingested in this iteration. *)
Lemma iteration_skips_queue_after_sync :
  let l := {| q_color := [Sample.color_100]; q_disp := [Sample.depth_150];
              q_nn := [];
              sync := run [("depth", Sample.depth_120); ("nn", Sample.nn_115)] init |} in
  let r := iteration l in
  (r.2 ≫= (.!! "color")) = Some Sample.color_100
  ∧ q_disp l = [Sample.depth_150]
  ∧ q_disp r.1 = [Sample.depth_150]
  ∧ buffer (arrays (sync r.1)) "depth" = [Sample.depth_120].
Proof. cbv zeta. repeat split; vm_compute; reflexivity. Qed.

Lemma poll_cases name q st :
  poll name q st
  = match q, st.2 with
    | m :: q', None => (q', add_msg st.1 name m)
    | _, _ => (q, st)
    end.
Proof. unfold poll. destruct q, st as [s [synced|]]; reflexivity. Qed.

(** C4, amended.  An iteration polls the colour, disparity and inference
    queues in this order.  A queue that reports data has its oldest
    message popped and ingested by [add_msg] in that iteration when no
    earlier queue of the iteration has produced a triple; once a triple
    has been produced, a later queue is left as it is and the synchroniser
    is not called for it. *)
Theorem iteration_ingests_until_synced (l : Loop.t) :
  let st1 := poll "color" (q_color l) (sync l, None) in
  let st2 := poll "depth" (q_disp l) st1.2 in
  let st3 := poll "nn" (q_nn l) st2.2 in
  iteration l
  = ({| q_color := st1.1; q_disp := st2.1; q_nn := st3.1; sync := st3.2.1 |},
     st3.2.2)
  ∧ (∀ m q, q_color l = m :: q → st1 = (q, add_msg (sync l) "color" m))
  ∧ (∀ m q, q_disp l = m :: q →
            st2 = match st1.2.2 with
                  | None => (q, add_msg st1.2.1 "depth" m)
                  | Some _ => (q_disp l, st1.2)
                  end)
  ∧ (∀ m q, q_nn l = m :: q →
            st3 = match st2.2.2 with
                  | None => (q, add_msg st2.2.1 "nn" m)
                  | Some _ => (q_nn l, st2.2)
                  end).
Proof.
  cbv zeta. split; [|split; [|split]].
  - unfold iteration.
    destruct (poll "color" _ _) as [qc st1].
    destruct (poll "depth" _ _) as [qd st2]. simpl.
    by destruct (poll "nn" _ _) as [qn st3].
  - intros m q Hq. by rewrite poll_cases, Hq.
  - intros m q Hq. rewrite (poll_cases "depth"), Hq.
    by destruct (_.2.2).
  - intros m q Hq. rewrite (poll_cases "nn"), Hq.
    by destruct (_.2.2).
Qed.

End Polling.

(** ** Cropping *)

Section Cropping.
Context {A : Type}.
Implicit Types (frame : list (list A)) (row : list A).

Lemma py_slice_all {B : Type} (l : list B) :
  py_slice 0 (Z.of_nat (length l)) l = l.
Proof.
  unfold py_slice, slice_bound. rewrite decide_False by lia.
  rewrite decide_False by lia.
  replace (Z.min 0 _) with 0 by lia. rewrite Z.min_id, Z.sub_0_r, Nat2Z.id.
  simpl. apply firstn_all.
Qed.

Lemma py_slice_inner {B : Type} (lo hi : Z) (l : list B) :
  0 <= lo <= hi → hi <= Z.of_nat (length l) →
  py_slice lo hi l = take (Z.to_nat (hi - lo)) (drop (Z.to_nat lo) l).
Proof.
  intros Hlo Hhi. unfold py_slice, slice_bound.
  rewrite !decide_False by lia. by rewrite !Z.min_l by lia.
Qed.

Lemma rectangular_shape1 h w frame :
  rectangular h w frame → 0 < h → shape1 frame = w.
Proof.
  intros [Hh Hrows] Hpos. unfold shape0, shape1 in *.
  destruct frame as [|row frame]; simpl in *; [lia|].
  by apply Forall_cons in Hrows as [? _].
Qed.

(** On a frame at least as wide as high, the crop keeps every row and
    removes [delta] pixels at each end of it. *)
Lemma crop_to_square_wide h w frame :
  rectangular h w frame → 0 < h <= w →
  let delta := crop_delta h w in
  crop_to_square frame
  = (λ row, take (Z.to_nat (w - 2 * delta)) (drop (Z.to_nat delta) row)) <$> frame
  ∧ rectangular h (w - 2 * delta) (crop_to_square frame).
Proof.
  intros Hrect Hhw delta.
  pose proof (rectangular_shape1 _ _ _ Hrect ltac:(lia)) as Hw.
  destruct Hrect as [Hh Hrows].
  assert (0 <= delta ∧ 2 * delta <= w - h) as Hd.
  { unfold delta, crop_delta.
    pose proof (Z.quot_pos (w - h) 2 ltac:(lia) ltac:(lia)).
    pose proof (Z.mul_quot_le (w - h) 2 ltac:(lia) ltac:(lia)). lia. }
  assert (crop_to_square frame
          = (λ row, take (Z.to_nat (w - 2 * delta)) (drop (Z.to_nat delta) row))
              <$> frame) as Heq.
  { unfold crop_to_square. rewrite Hw. unfold shape0 in *.
    rewrite py_slice_all. rewrite Hh. fold delta.
    apply Forall_fmap_ext_1. eapply Forall_impl; [exact Hrows|].
    intros row Hrow. cbv beta in Hrow.
    rewrite py_slice_inner by lia. do 2 f_equal. lia. }
  split; [exact Heq|]. rewrite Heq. split.
  - unfold shape0 in *. by rewrite length_fmap.
  - apply Forall_fmap. eapply Forall_impl; [exact Hrows|].
    intros row Hrow. unfold compose. cbv beta in *.
    rewrite length_take, length_drop. lia.
Qed.

(** When the difference of width and height is even the result is a
    square of the height of the frame. *)
Lemma crop_to_square_even h w frame :
  rectangular h w frame → 0 < h <= w → Z.even (w - h) = true →
  rectangular h h (crop_to_square frame).
Proof.
  intros Hrect Hhw Hev.
  destruct (crop_to_square_wide h w frame Hrect Hhw) as [_ Hr].
  replace (w - 2 * crop_delta h w) with h in Hr; [done|].
  unfold crop_delta. apply Zeven_bool_iff, Zeven_ex_iff in Hev as [k Hk].
  rewrite Hk. rewrite (Z.mul_comm 2 k), Z.quot_mul by lia. lia.
Qed.

(** When the difference is odd one column too many is kept. *)
Lemma crop_to_square_odd h w frame :
  rectangular h w frame → 0 < h <= w → Z.odd (w - h) = true →
  rectangular h (h + 1) (crop_to_square frame).
Proof.
  intros Hrect Hhw Hodd.
  destruct (crop_to_square_wide h w frame Hrect Hhw) as [_ Hr].
  replace (w - 2 * crop_delta h w) with (h + 1) in Hr; [done|].
  unfold crop_delta. apply Zodd_bool_iff, Zodd_ex_iff in Hodd as [k Hk].
  rewrite Hk. rewrite Z.quot_div_nonneg by lia.
  replace (2 * k + 1) with (1 + k * 2) by lia.
  rewrite Z.div_add by lia. change (1 / 2) with 0. lia.
Qed.

(** A square frame is returned as it is. *)
Lemma crop_to_square_square h frame :
  rectangular h h frame → crop_to_square frame = frame.
Proof.
  intros Hrect. destruct (decide (0 < h)) as [Hpos|Hz].
  - destruct (crop_to_square_wide h h frame Hrect ltac:(lia)) as [-> _].
    unfold crop_delta. rewrite Z.sub_diag. simpl.
    destruct Hrect as [_ Hrows]. rewrite Z.sub_0_r.
    rewrite <- (list_fmap_id frame) at 2.
    apply Forall_fmap_ext_1. eapply Forall_impl; [exact Hrows|].
    intros row Hrow. cbv beta in *. rewrite drop_0.
    rewrite <- Hrow, Nat2Z.id. apply firstn_all.
  - destruct Hrect as [Hh _]. unfold shape0 in Hh.
    destruct frame; [done|simpl in Hh; lia].
Qed.

End Cropping.

(** C5, as stated, fails.  A frame three pixels high and four wide is at
    least as wide as high; [crop_to_square] computes
    [delta = int(0.5) = 0], removes no column and returns the frame as it
    is, four pixels wide and three high: not a square. *)
Theorem crop_to_square_odd_difference :
  let frame := [[1; 2; 3; 4]; [5; 6; 7; 8]; [9; 10; 11; 12]] in
  rectangular 3 4 frame
  ∧ crop_delta 3 4 = 0
  ∧ crop_to_square frame = frame
  ∧ shape0 (crop_to_square frame) = 3
  ∧ shape1 (crop_to_square frame) = 4.
Proof.
  cbv zeta. split; [|repeat split; vm_compute; reflexivity].
  split; [reflexivity|]. repeat constructor.
Qed.

(** C5, amended.  On a rectangular frame at least as wide as high whose
    width and height differ by an even number, [crop_to_square] returns a
    frame whose width equals its height: the height is unchanged and
    [delta = (width - height) / 2] pixels are removed at each end of every
    row.  A frame that is already square is returned unchanged.  A frame
    of 1080 rows of 1920 pixels becomes one of 1080 rows of 1080 pixels,
    and its resize to [TARGET_SHAPE] is 400 x 400, [cv2.resize], which
    belongs to OpenCV, returning an image of the size it is asked for. *)
Theorem crop_to_square_even_difference {A : Type}
    (cv2_resize : list (list A) → Z * Z → list (list A))
    (h w : Z) (frame : list (list A)) :
  (∀ src dsize, 0 < shape0 src → 0 < shape1 src →
                0 < dsize.1 → 0 < dsize.2 →
                rectangular dsize.2 dsize.1 (cv2_resize src dsize)) →
  rectangular h w frame → 0 < h <= w → Z.even (w - h) = true →
  let delta := crop_delta h w in
  rectangular h h (crop_to_square frame)
  ∧ 2 * delta = w - h
  ∧ crop_to_square frame
    = (λ row, take (Z.to_nat h) (drop (Z.to_nat delta) row)) <$> frame
  ∧ (w = h → crop_to_square frame = frame)
  ∧ (∀ frame' : list (list A),
       rectangular 1080 1920 frame' →
       rectangular 1080 1080 (crop_to_square frame')
       ∧ rectangular 400 400 (cv2_resize (crop_to_square frame') TARGET_SHAPE)).
Proof.
  intros Hresize Hrect Hhw Hev delta.
  assert (2 * delta = w - h) as Hdelta.
  { unfold delta, crop_delta.
    apply Zeven_bool_iff, Zeven_ex_iff in Hev as [k Hk].
    rewrite Hk. rewrite (Z.mul_comm 2 k), Z.quot_mul by lia. lia. }
  split; [by eapply crop_to_square_even|]. split; [exact Hdelta|].
  split; [|split].
  - destruct (crop_to_square_wide h w frame Hrect Hhw) as [-> _].
    fold delta. by replace (w - 2 * delta) with h by lia.
  - intros ->. by eapply crop_to_square_square.
  - intros frame' Hrect'.
    assert (rectangular 1080 1080 (crop_to_square frame')) as Hsq.
    { eapply crop_to_square_even; [exact Hrect'|lia|reflexivity]. }
    split; [exact Hsq|].
    apply (Hresize (crop_to_square frame') TARGET_SHAPE).
    + destruct Hsq as [-> _]. lia.
    + rewrite (rectangular_shape1 1080 1080) by (done || lia). lia.
    + simpl. lia.
    + simpl. lia.
Qed.

Lemma crop_to_square_even_difference_witness :
  let frame := [[1; 2; 3; 4; 5]; [6; 7; 8; 9; 10]; [11; 12; 13; 14; 15]] in
  let resize := λ (_ : list (list Z)) (dsize : Z * Z),
                  replicate (Z.to_nat dsize.2) (replicate (Z.to_nat dsize.1) 0) in
  (∀ src dsize, 0 < shape0 src → 0 < shape1 src →
                0 < dsize.1 → 0 < dsize.2 →
                rectangular dsize.2 dsize.1 (resize src dsize))
  ∧ rectangular 3 5 frame ∧ 0 < 3 <= 5 ∧ Z.even (5 - 3) = true
  ∧ rectangular 3 3 (crop_to_square frame)
  ∧ 2 * crop_delta 3 5 = 5 - 3
  ∧ crop_to_square frame
    = (λ row, take (Z.to_nat 3) (drop (Z.to_nat (crop_delta 3 5)) row)) <$> frame
  ∧ (5 = 3 → crop_to_square frame = frame)
  ∧ (∀ frame' : list (list Z),
       rectangular 1080 1920 frame' →
       rectangular 1080 1080 (crop_to_square frame')
       ∧ rectangular 400 400 (resize (crop_to_square frame') TARGET_SHAPE)).
Proof.
  cbv zeta.
  assert (∀ (src : list (list Z)) (dsize : Z * Z),
            0 < shape0 src → 0 < shape1 src →
            0 < dsize.1 → 0 < dsize.2 →
            rectangular dsize.2 dsize.1
              (replicate (Z.to_nat dsize.2) (replicate (Z.to_nat dsize.1) 0)))
    as H0.
  { intros src [dw dh] _ _ Hdw Hdh. cbn [fst snd] in *. split.
    - unfold shape0. rewrite length_replicate. lia.
    - apply Forall_replicate. rewrite length_replicate. lia. }
  assert (rectangular 3 5 [[1; 2; 3; 4; 5]; [6; 7; 8; 9; 10]; [11; 12; 13; 14; 15]])
    as H1 by (split; [reflexivity|repeat constructor]).
  assert (0 < 3 <= 5) as H2 by lia.
  assert (Z.even (5 - 3) = true) as H3 by reflexivity.
  split; [exact H0|]. split; [exact H1|]. split; [exact H2|]. split; [exact H3|].
  exact (crop_to_square_even_difference _ 3 5 _ H0 H1 H2 H3).
Defined.

(** ** Decoding *)

Section Decoding.

Lemma mapM_total {B C : Type} (f : B → option C) (d : C) (l : list B) :
  Forall (λ x, is_Some (f x)) l →
  mapM f l = Some ((λ x, default d (f x)) <$> l).
Proof.
  induction 1 as [|x l [y Hy] _ IH]; [done|].
  cbn [mapM]. rewrite Hy, IH. by cbn; rewrite Hy.
Qed.

Lemma chunks_length rows n flat : length (chunks rows n flat) = rows.
Proof. revert flat. induction rows; intros; simpl; [done|by f_equal]. Qed.

Lemma chunks_rows rows n flat :
  length flat = (rows * n)%nat →
  Forall (λ row, length row = n) (chunks rows n flat).
Proof.
  revert flat. induction rows as [|rows IH]; intros flat Hlen; simpl.
  - constructor.
  - constructor.
    + rewrite length_take. simpl in Hlen. lia.
    + apply IH. rewrite length_drop. simpl in Hlen. lia.
Qed.

Lemma chunks_Forall (P : Z → Prop) rows n flat :
  Forall P flat → Forall (Forall P) (chunks rows n flat).
Proof.
  revert flat. induction rows as [|rows IH]; intros flat HP; simpl.
  - constructor.
  - constructor; [by apply Forall_take|apply IH; by apply Forall_drop].
Qed.

Lemma chunks_constant v rows n flat :
  length flat = (rows * n)%nat → Forall (λ x, x = v) flat →
  chunks rows n flat = replicate rows (replicate n v).
Proof.
  intros Hlen Hall.
  pose proof (chunks_rows rows n flat Hlen) as Hrows.
  pose proof (chunks_Forall _ rows n flat Hall) as Hvals.
  pose proof (chunks_length rows n flat) as Hr.
  revert Hrows Hvals Hr. generalize (chunks rows n flat). clear.
  intros l Hrows Hvals <-.
  induction l as [|row l IH]; [done|].
  apply Forall_cons in Hrows as [Hrow Hrows].
  apply Forall_cons in Hvals as [Hval Hvals].
  simpl. f_equal; [|by apply IH].
  rewrite <- Hrow. clear -Hval.
  induction Hval as [|x row -> _ IH]; [done|]. simpl. by f_equal.
Qed.

(** A tensor of the right size with classes 0 and 1 only is decoded
    without error, pixel by pixel, through the table. *)
Lemma take_table_total (table : list (list Z)) nn_shape tensor :
  length table = 2%nat →
  0 <= nn_shape → Z.of_nat (length tensor) = nn_shape * nn_shape →
  Forall (λ v, v = 0 ∨ v = 1) tensor →
  let output := chunks (Z.to_nat nn_shape) (Z.to_nat nn_shape) tensor in
  (output ← reshape nn_shape tensor; mapM (mapM (np_take table)) output)
  = Some ((λ row : list Z, (λ v, default [] (np_take table v)) <$> row) <$> output).
Proof.
  intros Htab Hn Hlen Hvals output. unfold reshape.
  rewrite decide_True by done. cbn [mbind option_bind].
  fold output.
  rewrite (mapM_total _ []).
  - f_equal. apply Forall_fmap_ext_1.
    eapply Forall_impl; [apply (chunks_Forall _ _ _ _ Hvals)|].
    intros row Hrow. cbv beta in *.
    rewrite (mapM_total _ []); [done|].
    eapply Forall_impl; [exact Hrow|]. intros v Hv. cbv beta in *.
    unfold np_take. rewrite Htab.
    destruct (table) as [|c0 [|c1 rest]]; try discriminate.
    destruct Hv as [-> | ->]; by eexists.
  - eapply Forall_impl; [apply (chunks_Forall _ _ _ _ Hvals)|].
    intros row Hrow. cbv beta in *.
    rewrite (mapM_total _ []); [by eexists|].
    eapply Forall_impl; [exact Hrow|]. intros v Hv. cbv beta in *.
    unfold np_take. rewrite Htab.
    destruct (table) as [|c0 [|c1 rest]]; try discriminate.
    destruct Hv as [-> | ->]; by eexists.
Qed.

Lemma rectangular_fmap {B C : Type} (f : B → C) h w (img : list (list B)) :
  rectangular h w img → rectangular h w (fmap (M:=list) f <$> img).
Proof.
  intros [Hh Hrows]. split.
  - unfold shape0 in *. by rewrite length_fmap.
  - apply Forall_fmap. eapply Forall_impl; [exact Hrows|].
    intros row Hrow. unfold compose. by rewrite length_fmap.
Qed.

Lemma chunks_rectangular nn_shape tensor :
  0 <= nn_shape → Z.of_nat (length tensor) = nn_shape * nn_shape →
  rectangular nn_shape nn_shape
    (chunks (Z.to_nat nn_shape) (Z.to_nat nn_shape) tensor).
Proof.
  intros Hn Hlen. split.
  - unfold shape0. rewrite chunks_length. lia.
  - eapply Forall_impl; [apply chunks_rows; nia|].
    intros row Hrow. cbv beta in *. lia.
Qed.

(** C6. Decoder correctness.  For a tensor of [nn_shape * nn_shape]
    classes, each 0 or 1, both decoders succeed and return arrays of
    [nn_shape] rows of [nn_shape] pixels.  When every class is 0 the
    colour image is black (0,0,0) at every pixel and the multiplier is 0
    everywhere; when every class is 1 the colour image is green (0,255,0)
    at every pixel and the multiplier is 1 everywhere. *)
Theorem decoder_constant_tensors (nn_shape : Z) (tensor : list Z) :
  0 <= nn_shape →
  Z.of_nat (length tensor) = nn_shape * nn_shape →
  Forall (λ v, v = 0 ∨ v = 1) tensor →
  let n := Z.to_nat nn_shape in
  ∃ colors mask,
    decode_deeplabv3p nn_shape tensor = Some colors
    ∧ get_multiplier nn_shape tensor = Some mask
    ∧ rectangular nn_shape nn_shape colors
    ∧ rectangular nn_shape nn_shape mask
    ∧ (Forall (λ v, v = 0) tensor →
       colors = replicate n (replicate n [0; 0; 0])
       ∧ mask = replicate n (replicate n [0]))
    ∧ (Forall (λ v, v = 1) tensor →
       colors = replicate n (replicate n [0; 255; 0])
       ∧ mask = replicate n (replicate n [1])).
Proof.
  intros Hn Hlen Hvals n. unfold decode_deeplabv3p, get_multiplier.
  rewrite !take_table_total by done. fold n.
  do 2 eexists. split; [reflexivity|]. split; [reflexivity|].
  assert (length tensor = (n * n)%nat) as Hlen' by (unfold n; nia).
  split; [|split; [|split]].
  - apply rectangular_fmap. by apply chunks_rectangular.
  - apply rectangular_fmap. by apply chunks_rectangular.
  - intros Hz. rewrite (chunks_constant 0) by done.
    by rewrite !fmap_replicate.
  - intros Ho. rewrite (chunks_constant 1) by done.
    by rewrite !fmap_replicate.
Qed.

Lemma decoder_constant_tensors_witness :
  0 <= 2
  ∧ Z.of_nat (length [1; 1; 1; 1]) = 2 * 2
  ∧ Forall (λ v, v = 0 ∨ v = 1) [1; 1; 1; 1]
  ∧ ∃ colors mask,
      decode_deeplabv3p 2 [1; 1; 1; 1] = Some colors
      ∧ get_multiplier 2 [1; 1; 1; 1] = Some mask
      ∧ rectangular 2 2 colors
      ∧ rectangular 2 2 mask
      ∧ (Forall (λ v, v = 0) [1; 1; 1; 1] →
         colors = replicate 2 (replicate 2 [0; 0; 0])
         ∧ mask = replicate 2 (replicate 2 [0]))
      ∧ (Forall (λ v, v = 1) [1; 1; 1; 1] →
         colors = replicate 2 (replicate 2 [0; 255; 0])
         ∧ mask = replicate 2 (replicate 2 [1])).
Proof.
  assert (0 <= 2) as H0 by lia.
  assert (Z.of_nat (length [1; 1; 1; 1]) = 2 * 2) as H1 by reflexivity.
  assert (Forall (λ v, v = 0 ∨ v = 1) [1; 1; 1; 1]) as H2
    by (repeat constructor; by right).
  split; [exact H0|]. split; [exact H1|]. split; [exact H2|].
  exact (decoder_constant_tensors 2 [1; 1; 1; 1] H0 H1 H2).
Defined.

End Decoding.

(** ** Composition of the cutout panel *)

Section Cutout.
Variable nn_shape : Z.
Variable COLORMAP_JET : Z → list Z.
Variable cv2_resize : list (list (list Z)) → list (list Z).

Lemma at2_applyColorMap src table x y :
  at2 (applyColorMap src table) x y
  = (λ v, default [] (table !! Z.to_nat v)) <$> at2 src x y.
Proof.
  unfold at2, applyColorMap. rewrite list_lookup_fmap.
  destruct (src !! x) as [row|]; simpl; [|done].
  by rewrite list_lookup_fmap.
Qed.

Lemma at2_mul_uint8 a b x y :
  at2 (mul_uint8 a b) x y
  = (va ← at2 a x y; vb ← at2 b x y; Some ((va * vb) mod 256)).
Proof.
  unfold at2, mul_uint8. rewrite lookup_zip_with.
  destruct (a !! x) as [ra|]; simpl; [|done].
  destruct (b !! x) as [rb|]; simpl.
  - rewrite lookup_zip_with. by destruct (ra !! y).
  - by destruct (ra !! y).
Qed.

Lemma jet_custom_0 : jet_custom COLORMAP_JET !! 0%nat = Some [0; 0; 0].
Proof.
  unfold jet_custom. apply list_lookup_insert_eq.
  rewrite length_fmap, length_seqZ. lia.
Qed.

(** C7. Cutout masking.  At a position where the resized disparity frame
    holds the 8-bit value [d]: where the resized mask is 1 the cutout
    panel has the pixel of the depth panel, the colour map applied to the
    disparity; where the mask is 0 it has the colour map applied to 0,
    which is black since entry 0 of the palette is (0,0,0). *)
Theorem cutout_masking (lay1 : list Z) (disp_frame : list (list Z))
    (multiplier : list (list (list Z))) (x y : nat) (d : Z) :
  get_multiplier nn_shape lay1 = Some multiplier →
  at2 disp_frame x y = Some d →
  0 <= d < 256 →
  ∃ panel,
    cutout nn_shape COLORMAP_JET cv2_resize lay1 disp_frame = Some panel
    ∧ (at2 (cv2_resize multiplier) x y = Some 1 →
       at2 panel x y
       = at2 (applyColorMap disp_frame (jet_custom COLORMAP_JET)) x y)
    ∧ (at2 (cv2_resize multiplier) x y = Some 0 →
       at2 panel x y
       = at2 (applyColorMap [[0]] (jet_custom COLORMAP_JET)) 0 0
       ∧ at2 panel x y = Some [0; 0; 0]).
Proof.
  intros Hmul Hd Hrange. unfold cutout. rewrite Hmul. cbn [mbind option_bind].
  eexists. split; [reflexivity|].
  rewrite !at2_applyColorMap, at2_mul_uint8, Hd. cbn [mbind option_bind].
  split; intros ->; cbn [mbind option_bind fmap option_fmap option_map].
  - by rewrite Z.mul_1_r, Z.mod_small.
  - rewrite Z.mul_0_r. change (Z.to_nat (0 mod 256)) with 0%nat.
    cbn [at2 lookup list_lookup mbind option_bind].
    change (Z.to_nat 0) with 0%nat. by rewrite jet_custom_0.
Qed.

End Cutout.

Lemma cutout_masking_witness :
  let jet := λ v : Z, [v; 0; 255 - v] in
  let resize := λ m : list (list (list Z)),
                  (λ row : list (list Z), (λ p : list Z, default 0 (head p)) <$> row) <$> m in
  let lay1 := [0; 1; 1; 0] in
  let disp_frame := [[5; 6]; [7; 8]] in
  get_multiplier 2 lay1 = Some [[[0]; [1]]; [[1]; [0]]]
  ∧ at2 disp_frame 0 1 = Some 6
  ∧ 0 <= 6 < 256
  ∧ ∃ panel,
      cutout 2 jet resize lay1 disp_frame = Some panel
      ∧ (at2 (resize [[[0]; [1]]; [[1]; [0]]]) 0 1 = Some 1 →
         at2 panel 0 1 = at2 (applyColorMap disp_frame (jet_custom jet)) 0 1)
      ∧ (at2 (resize [[[0]; [1]]; [[1]; [0]]]) 0 1 = Some 0 →
         at2 panel 0 1 = at2 (applyColorMap [[0]] (jet_custom jet)) 0 0
         ∧ at2 panel 0 1 = Some [0; 0; 0]).
Proof.
  cbv zeta.
  assert (get_multiplier 2 [0; 1; 1; 0] = Some [[[0]; [1]]; [[1]; [0]]]) as H1
    by (vm_compute; reflexivity).
  assert (at2 [[5; 6]; [7; 8]] 0 1 = Some 6) as H2 by reflexivity.
  assert (0 <= 6 < 256) as H3 by lia.
  split; [exact H1|]. split; [exact H2|]. split; [exact H3|].
  exact (cutout_masking 2 _ _ _ _ _ 0%nat 1%nat 6 H1 H2 H3).
Defined.

(** ** Frame rate *)

Section FrameRate.
Import FPSHandler.
Local Open Scope Qc_scope.

Lemma next_iter_foldl s (ticks : list Qc) :
  let s' := foldl next_iter s ticks in
  frame_cnt s' = (frame_cnt s + length ticks)%nat ∧ start s' = start s.
Proof.
  cbv zeta. revert s. induction ticks as [|now ticks IH]; intros s; simpl.
  - by rewrite Nat.add_0_r.
  - destruct (IH (next_iter s now)) as [-> ->]. simpl.
    by rewrite Nat.add_succ_r.
Qed.

(** C8, as stated, fails.  When both clock readings of [__init__] are
    equal and no iteration has been recorded, the count is 0, the last
    timestamp equals the start, and [fps] divides by zero; it does so too
    after an iteration recorded at the very same clock reading. *)
Lemma fps_divides_by_zero :
  let s := init 1 1 in
  frame_cnt s = 0%nat ∧ timestamp s = start s ∧ fps s = None
  ∧ frame_cnt (next_iter s 1) = 1%nat ∧ fps (next_iter s 1) = None.
Proof. cbv zeta. repeat split. Qed.

(** C8, amended.  After [N] recorded iterations the count is [N].  [fps]
    returns a value exactly when the last timestamp differs from the
    start, the count divided by the elapsed time, and raises a division by
    zero when they are equal; the value is non-negative when the last
    timestamp is later than the start. *)
Theorem fps_count_and_rate (now1 now2 : Qc) (ticks : list Qc) :
  let s := foldl next_iter (init now1 now2) ticks in
  frame_cnt s = length ticks
  ∧ (timestamp s = start s ↔ fps s = None)
  ∧ (timestamp s ≠ start s →
     fps s = Some (Qc_of_Z (Z.of_nat (length ticks)) / (timestamp s - start s)))
  ∧ (start s < timestamp s → ∃ q, fps s = Some q ∧ 0 ≤ q).
Proof.
  cbv zeta. set (s := foldl next_iter (init now1 now2) ticks).
  destruct (next_iter_foldl (init now1 now2) ticks) as [Hcnt _].
  fold s in Hcnt. simpl in Hcnt.
  assert (timestamp s - start s = 0 ↔ timestamp s = start s) as Hz.
  { split; [|intros ->; ring].
    intros H. rewrite <- (Qcplus_0_l (start s)), <- H. ring. }
  split; [exact Hcnt|]. unfold fps. cbv zeta. rewrite Hcnt.
  split; [|split].
  - case_decide as E; [by rewrite Hz in E|].
    split; [intros Heq; by apply Hz in Heq|done].
  - intros Hne. rewrite decide_False; [done|]. by rewrite Hz.
  - intros Hlt.
    assert (0 < timestamp s - start s) as Hpos.
    { apply (Qcplus_lt_mono_r _ _ (start s)).
      by replace (timestamp s - start s + start s) with (timestamp s) by ring;
         rewrite Qcplus_0_l. }
    rewrite decide_False.
    + eexists. split; [reflexivity|].
      apply Qcmult_nonneg_nonneg.
      * pose proof (proj1 (Z2Qc_inj_le 0 (Z.of_nat (length ticks)))
                      (Nat2Z.is_nonneg _)) as Hle.
        by rewrite Z2Qc_inj_0 in Hle.
      * apply Qclt_le_weak. by apply Qcinv_pos.
    + intros E. rewrite E in Hpos. by apply Qclt_not_eq in Hpos.
Qed.

End FrameRate.

(** * Further properties of the synchroniser *)

Section SyncSearch.
Import HostSync.

(** X1. Earliest match wins.  The entry a returned triple holds for a
    stream is the oldest entry of that stream's buffer that is less than
    33 ms away from the new message: it is in the buffer, it is less than
    33 ms away, and every entry before it in the buffer is 33 ms or more
    away. *)
Theorem add_msg_earliest_match s name msg synced n m :
  (add_msg s name msg).2 = Some synced →
  synced !! n = Some m →
  ∃ i : nat,
    buffer (append_msg s name msg) n !! i = Some m
    ∧ Z.abs (getTimestamp m - getTimestamp msg) < milliseconds 33
    ∧ ∀ (j : nat) obj,
        (j < i)%nat →
        buffer (append_msg s name msg) n !! j = Some obj →
        milliseconds 33 <= Z.abs (getTimestamp obj - getTimestamp msg).
Proof.
  intros Hr Hm.
  destruct (add_msg_cases s name msg) as [[_ E]|[_ E]];
    rewrite E in Hr; simplify_eq/=.
  rewrite find_synced_lookup in Hm. unfold buffer.
  destruct (append_msg s name msg !! n) as [arr|]; simpl in *; [|done].
  unfold first_synced in Hm.
  destruct (list_find _ arr) as [[i x]|] eqn:Hf; simplify_eq/=.
  apply list_find_Some in Hf as (Hi & Hsync & Hbefore).
  exists i. split; [done|].
  split; [apply in_sync_spec in Hsync; unfold milliseconds; lia|].
  intros j obj Hj Hobj.
  specialize (Hbefore j obj Hobj Hj).
  destruct (decide (milliseconds 33 <= Z.abs (getTimestamp obj - getTimestamp msg)))
    as [|Hn]; [done|].
  exfalso. apply Hbefore. apply in_sync_spec. unfold milliseconds in Hn. lia.
Qed.

Lemma add_msg_earliest_match_witness :
  let s := run (take 2 Sample.triple_calls) init in
  let synced := default ∅ (add_msg s "nn" Sample.nn_115).2 in
  (add_msg s "nn" Sample.nn_115).2 = Some synced
  ∧ synced !! "color" = Some Sample.color_100
  ∧ ∃ i : nat,
      buffer (append_msg s "nn" Sample.nn_115) "color" !! i = Some Sample.color_100
      ∧ Z.abs (getTimestamp Sample.color_100 - getTimestamp Sample.nn_115)
        < milliseconds 33
      ∧ ∀ (j : nat) obj,
          (j < i)%nat →
          buffer (append_msg s "nn" Sample.nn_115) "color" !! j = Some obj →
          milliseconds 33 <= Z.abs (getTimestamp obj - getTimestamp Sample.nn_115).
Proof.
  cbv zeta.
  assert ((add_msg (run (take 2 Sample.triple_calls) init) "nn" Sample.nn_115).2
          = Some (default ∅ (add_msg (run (take 2 Sample.triple_calls) init)
                               "nn" Sample.nn_115).2)) as H1
    by (vm_compute; reflexivity).
  assert (default ∅ (add_msg (run (take 2 Sample.triple_calls) init)
                       "nn" Sample.nn_115).2 !! "color"
          = Some Sample.color_100) as H2 by (vm_compute; reflexivity).
  split; [exact H1|]. split; [exact H2|].
  exact (add_msg_earliest_match _ _ _ _ _ _ H1 H2).
Defined.

(** X2. Shape of a returned triple.  It has exactly three entries, one
    of them for the stream of the message just added, and each entry is
    an element of the buffer of its own stream. *)
Theorem add_msg_triple_shape s name msg synced :
  (add_msg s name msg).2 = Some synced →
  size synced = 3%nat
  ∧ is_Some (synced !! name)
  ∧ ∀ n m, synced !! n = Some m → m ∈ buffer (append_msg s name msg) n.
Proof.
  intros Hr.
  destruct (add_msg_cases s name msg) as [[Hsz E]|[_ E]];
    rewrite E in Hr; simplify_eq/=.
  split; [done|]. split.
  - rewrite find_synced_lookup.
    pose proof (buffer_append_new s name msg) as Hin. unfold buffer in Hin.
    destruct (append_msg s name msg !! name) as [arr|]; simpl in *.
    + eapply first_synced_is_Some; [exact Hin|].
      apply in_sync_spec. rewrite Z.sub_diag. simpl. lia.
    + by apply elem_of_nil in Hin.
  - intros n m Hm. by apply find_synced_Some in Hm as [? _].
Qed.

Lemma add_msg_triple_shape_witness :
  let s := run (take 2 Sample.triple_calls) init in
  let synced := default ∅ (add_msg s "nn" Sample.nn_115).2 in
  (add_msg s "nn" Sample.nn_115).2 = Some synced
  ∧ size synced = 3%nat
  ∧ is_Some (synced !! "nn")
  ∧ ∀ n m, synced !! n = Some m → m ∈ buffer (append_msg s "nn" Sample.nn_115) n.
Proof.
  cbv zeta.
  assert ((add_msg (run (take 2 Sample.triple_calls) init) "nn" Sample.nn_115).2
          = Some (default ∅ (add_msg (run (take 2 Sample.triple_calls) init)
                               "nn" Sample.nn_115).2)) as H1
    by (vm_compute; reflexivity).
  split; [exact H1|].
  exact (add_msg_triple_shape _ _ _ _ H1).
Defined.

Lemma first_synced_is_Some_iff ts (arr : list Msg) :
  is_Some (first_synced ts arr)
  ↔ Exists (λ m, Z.abs (getTimestamp m - ts) < milliseconds 33) arr.
Proof.
  rewrite Exists_exists. split.
  - intros [m Hm]. apply first_synced_Some in Hm as [Hin Hs].
    exists m. split; [done|]. apply in_sync_spec in Hs.
    unfold milliseconds. lia.
  - intros (m & Hin & Hs). eapply first_synced_is_Some; [exact Hin|].
    apply in_sync_spec. unfold milliseconds in Hs. lia.
Qed.

(** The streams with a match are the streams whose buffer holds an entry
    in sync. *)
Lemma find_synced_dom ts (arrs : gmap string (list Msg)) :
  dom (find_synced ts arrs)
  = dom (filter (λ kv : string * list Msg,
                   Exists (λ m, Z.abs (getTimestamp m - ts) < milliseconds 33)
                          kv.2) arrs).
Proof.
  apply set_eq. intros n. rewrite !elem_of_dom, find_synced_lookup.
  split.
  - intros [m Hm]. destruct (arrs !! n) as [arr|] eqn:Ha; simpl in *; [|done].
    exists arr. apply map_lookup_filter_Some. split; [done|].
    simpl. apply first_synced_is_Some_iff. by eexists.
  - intros [arr Harr]. apply map_lookup_filter_Some in Harr as [Ha HE].
    rewrite Ha. simpl. by apply first_synced_is_Some_iff.
Qed.

(** X3. When a call synchronises.  A call returns a triple exactly when
    the number of stream buffers holding an entry less than 33 ms away
    from the new message is three: with fewer there is no match, and with
    more (a fourth stream) there is none either. *)
Theorem add_msg_syncs_iff s name msg :
  is_Some (add_msg s name msg).2
  ↔ size (filter (λ kv : string * list Msg,
                    Exists (λ m, Z.abs (getTimestamp m - getTimestamp msg)
                                 < milliseconds 33) kv.2)
                 (append_msg s name msg)) = 3%nat.
Proof.
  rewrite <- size_dom, <- find_synced_dom, size_dom.
  destruct (add_msg_cases s name msg) as [[Hsz ->]|[Hsz ->]]; simpl.
  - split; [done|by eexists].
  - split; [by intros [? ?]|done].
Qed.

End SyncSearch.

Section SyncBuffers.
Import HostSync.

Lemma find_synced_size_le ts (arrs : gmap string (list Msg)) :
  (size (find_synced ts arrs) ≤ size (dom arrs))%nat.
Proof.
  rewrite <- size_dom. apply subseteq_size.
  unfold find_synced. apply dom_omap_subseteq.
Qed.

Lemma size_pair_le (a b : string) : (size ({[a; b]} : gset string) ≤ 2)%nat.
Proof.
  rewrite size_union_alt, size_singleton.
  assert (size (({[b]} : gset string) ∖ {[a]}) ≤ 1)%nat; [|lia].
  rewrite <- (size_singleton (C:=gset string) b).
  apply subseteq_size. intros x. rewrite elem_of_difference. tauto.
Qed.

(** With buffers for at most two streams a call cannot synchronise. *)
Lemma add_msg_two_streams s name msg (a b : string) :
  dom (append_msg s name msg) ⊆ {[a; b]} →
  add_msg s name msg = ({| arrays := append_msg s name msg |}, None).
Proof.
  intros Hdom.
  destruct (add_msg_cases s name msg) as [[Hsz _]|[_ E]]; [|done].
  pose proof (find_synced_size_le (getTimestamp msg) (append_msg s name msg)).
  pose proof (subseteq_size _ _ Hdom). pose proof (size_pair_le a b). lia.
Qed.

Lemma run_results_two_streams (a b : string) calls s :
  dom (arrays s) ⊆ {[a; b]} →
  Forall (λ c : string * Msg, c.1 = a ∨ c.1 = b) calls →
  Forall (λ r, r = None) (results calls s)
  ∧ ∀ n, buffer (arrays (run calls s)) n
         = buffer (arrays s) n ++ (filter (λ c : string * Msg, c.1 = n) calls).*2.
Proof.
  intros Hdom Hcalls. revert s Hdom.
  induction Hcalls as [|[name msg] calls Hc _ IH]; intros s Hdom.
  - split; [constructor|]. intros n. simpl. by rewrite app_nil_r.
  - assert (dom (append_msg s name msg) ⊆ {[a; b]}) as Hdom'.
    { rewrite dom_append. intros x. rewrite elem_of_union, elem_of_singleton.
      intros [->|Hx]; [|by apply Hdom].
      rewrite elem_of_union, !elem_of_singleton. exact Hc. }
    pose proof (add_msg_two_streams s name msg a b Hdom') as E.
    destruct (IH {| arrays := append_msg s name msg |} Hdom') as [IH1 IH2].
    split.
    + cbn [results fst snd]. rewrite E. by constructor.
    + intros n. unfold run in *. cbn [foldl fst snd]. rewrite E. cbn [fst].
      rewrite IH2. cbn [arrays]. rewrite buffer_append.
      rewrite filter_cons. cbn [fst]. case_decide as Hn.
      * cbn [fmap list_fmap snd]. by rewrite <- app_assoc.
      * done.
Qed.

(** X4. Fewer than three streams.  A synchroniser that has only ever been
    fed from two streams (or one) never returns a triple and never prunes:
    every call returns no match and each buffer holds all the messages of
    its stream in arrival order, so it grows with every call. *)
Theorem add_msg_two_streams_never_sync (a b : string) (calls : list (string * Msg)) :
  Forall (λ c : string * Msg, c.1 = a ∨ c.1 = b) calls →
  Forall (λ r, r = None) (results calls init)
  ∧ ∀ n, buffer (arrays (run calls init)) n
         = (filter (λ c : string * Msg, c.1 = n) calls).*2.
Proof.
  intros Hcalls.
  destruct (run_results_two_streams a b calls init) as [H1 H2]; [|done|].
  - simpl. rewrite dom_empty_L. apply empty_subseteq.
  - split; [done|]. intros n. by rewrite H2.
Qed.

Lemma add_msg_two_streams_never_sync_witness :
  Forall (λ c : string * Msg, c.1 = "color" ∨ c.1 = "depth")
         (take 2 Sample.triple_calls)
  ∧ Forall (λ r, r = None) (results (take 2 Sample.triple_calls) init)
  ∧ ∀ n, buffer (arrays (run (take 2 Sample.triple_calls) init)) n
         = (filter (λ c : string * Msg, c.1 = n) (take 2 Sample.triple_calls)).*2.
Proof.
  assert (Forall (λ c : string * Msg, c.1 = "color" ∨ c.1 = "depth")
                 (take 2 Sample.triple_calls)) as H
    by (repeat constructor; by right).
  split; [exact H|].
  exact (add_msg_two_streams_never_sync "color" "depth" _ H).
Defined.

Lemma list_remove_sublist x (arr : list Msg) : list_remove x arr `sublist_of` arr.
Proof.
  induction arr as [|y arr IH]; simpl; [constructor|].
  case_decide; [by apply sublist_cons|by apply sublist_skip].
Qed.

Lemma prune_from_sublist ts fuel i (arr : list Msg) :
  prune_from fuel ts i arr `sublist_of` arr.
Proof.
  revert i arr. induction fuel as [|fuel IH]; intros i arr; simpl; [done|].
  destruct (arr !! i) as [obj|]; [|done].
  destruct (remove _ _); [|done].
  etrans; [apply IH|apply list_remove_sublist].
Qed.

(** X5. Arrival order.  Whatever a call does, what a buffer holds after
    it is a subsequence of what it held after the append: entries are
    only removed, never reordered or duplicated. *)
Theorem add_msg_keeps_order s name msg n :
  buffer (arrays (add_msg s name msg).1) n
  `sublist_of` buffer (append_msg s name msg) n.
Proof.
  destruct (add_msg_cases s name msg) as [[_ ->]|[_ ->]]; simpl; [|done].
  rewrite buffer_prune. apply prune_from_sublist.
Qed.

(** X6. No full scan.  When the oldest entry of a buffer is at most 500 ms
    away from the new message, a synchronising call leaves that buffer as
    it is, however stale the entries behind it are. *)
Theorem add_msg_prune_stops_at_fresh_head s name msg n obj rest :
  buffer (append_msg s name msg) n = obj :: rest →
  Z.abs (getTimestamp obj - getTimestamp msg) <= milliseconds 500 →
  buffer (arrays (add_msg s name msg).1) n = obj :: rest.
Proof.
  intros Hb Hfresh.
  destruct (add_msg_cases s name msg) as [[_ ->]|[_ ->]]; simpl; [|done].
  rewrite buffer_prune, Hb. unfold prune. cbn [length prune_from lookup list_lookup].
  apply remove_false_iff in Hfresh. by rewrite Hfresh.
Qed.

Lemma add_msg_prune_stops_at_fresh_head_witness :
  let s := run [("color", Sample.color_700); ("color", Sample.color_0);
                ("depth", Sample.depth_700)] init in
  buffer (append_msg s "nn" Sample.nn_700) "color"
  = [Sample.color_700; Sample.color_0]
  ∧ Z.abs (getTimestamp Sample.color_700 - getTimestamp Sample.nn_700)
    <= milliseconds 500
  ∧ buffer (arrays (add_msg s "nn" Sample.nn_700).1) "color"
    = [Sample.color_700; Sample.color_0].
Proof.
  cbv zeta.
  assert (buffer (append_msg
                    (run [("color", Sample.color_700); ("color", Sample.color_0);
                          ("depth", Sample.depth_700)] init)
                    "nn" Sample.nn_700) "color"
          = [Sample.color_700; Sample.color_0]) as H1
    by (vm_compute; reflexivity).
  assert (Z.abs (getTimestamp Sample.color_700 - getTimestamp Sample.nn_700)
          <= milliseconds 500) as H2 by (vm_compute; discriminate).
  split; [exact H1|]. split; [exact H2|].
  exact (add_msg_prune_stops_at_fresh_head _ _ _ _ _ _ H1 H2).
Defined.

(** X7. Buffers are never deleted.  After any sequence of calls the
    streams that have a buffer are those that had one before together
    with those named in the calls, even where pruning has emptied a
    buffer. *)
Theorem run_stream_names (calls : list (string * Msg)) s :
  dom (arrays (run calls s)) = dom (arrays s) ∪ list_to_set calls.*1.
Proof.
  revert s. induction calls as [|[name msg] calls IH]; intros s.
  - simpl. by rewrite (right_id_L ∅ (∪)).
  - unfold run in *. cbn [foldl]. rewrite IH. cbn [fst snd].
    rewrite dom_add_msg. cbn [fmap list_fmap list_to_set fst].
    rewrite (comm_L (∪) {[name]} (dom (arrays s))).
    by rewrite (assoc_L (∪)).
Qed.

End SyncBuffers.

(** * Further properties of the polling loop *)

Section LoopSafety.
Import HostSync Loop.

(** An iteration is the three polls in sequence. *)
Lemma iteration_polls (l : Loop.t) :
  iteration l
  = (let st1 := poll "color" (q_color l) (sync l, None) in
     let st2 := poll "depth" (q_disp l) st1.2 in
     let st3 := poll "nn" (q_nn l) st2.2 in
     ({| q_color := st1.1; q_disp := st2.1; q_nn := st3.1; sync := st3.2.1 |},
      st3.2.2)).
Proof.
  unfold iteration.
  destruct (poll "color" _ _) as [qc st1].
  destruct (poll "depth" _ _) as [qd st2]. simpl.
  by destruct (poll "nn" _ _) as [qn st3].
Qed.

Lemma stream_names_size : size stream_names = 3%nat.
Proof. reflexivity. Qed.

(** On a synchroniser fed from the three streams only, a call keeps it
    so, and a triple it returns has exactly their names as keys. *)
Lemma add_msg_stream_names s name msg :
  dom (arrays s) ⊆ stream_names → name ∈ stream_names →
  dom (arrays (add_msg s name msg).1) ⊆ stream_names
  ∧ ∀ synced, (add_msg s name msg).2 = Some synced → dom synced = stream_names.
Proof.
  intros Hdom Hname.
  assert (dom (append_msg s name msg) ⊆ stream_names) as Hdom'.
  { rewrite dom_append. intros x. rewrite elem_of_union, elem_of_singleton.
    intros [->|Hx]; [done|by apply Hdom]. }
  split; [by rewrite dom_add_msg, <- (dom_append s name msg)|].
  intros synced Hr.
  destruct (add_msg_cases s name msg) as [[Hsz E]|[_ E]];
    rewrite E in Hr; simplify_eq/=.
  apply set_subseteq_size_eq.
  - etrans; [apply dom_omap_subseteq|exact Hdom'].
  - rewrite size_dom, stream_names_size. by rewrite Hsz.
Qed.

Lemma poll_stream_names name q (st : HostSync.t * option (gmap string Msg)) :
  name ∈ stream_names →
  dom (arrays st.1) ⊆ stream_names →
  (∀ synced, st.2 = Some synced → dom synced = stream_names) →
  dom (arrays (poll name q st).2.1) ⊆ stream_names
  ∧ ∀ synced, (poll name q st).2.2 = Some synced → dom synced = stream_names.
Proof.
  intros Hname Hdom Hsynced. rewrite poll_cases.
  destruct q as [|m q]; [done|].
  destruct st as [s [synced|]]; [done|]. simpl in *.
  by apply add_msg_stream_names.
Qed.

(** X8. The lookups of the loop body are safe.  The loop only names the
    streams "color", "depth" and "nn"; so the synchroniser never gets a
    buffer for another stream, and whenever an iteration leaves a triple
    in [msgs] its keys are exactly these three: [msgs['nn']],
    [msgs["color"]] and [msgs["depth"]] all exist. *)
Theorem iteration_triple_keys (l : Loop.t) :
  dom (arrays (sync l)) ⊆ stream_names →
  dom (arrays (sync (iteration l).1)) ⊆ stream_names
  ∧ ∀ msgs, (iteration l).2 = Some msgs →
            is_Some (msgs !! "nn") ∧ is_Some (msgs !! "color")
            ∧ is_Some (msgs !! "depth") ∧ size msgs = 3%nat.
Proof.
  intros Hdom.
  rewrite iteration_polls. cbv zeta.
  set (st1 := poll "color" (q_color l) (sync l, None)).
  set (st2 := poll "depth" (q_disp l) st1.2).
  set (st3 := poll "nn" (q_nn l) st2.2).
  assert ("color" ∈ stream_names ∧ "depth" ∈ stream_names ∧ "nn" ∈ stream_names)
    as (Hc & Hd & Hn).
  { unfold stream_names. rewrite !elem_of_union, !elem_of_singleton. tauto. }
  destruct (poll_stream_names "color" (q_color l) (sync l, None) Hc Hdom)
    as [H1 H1']; [done|].
  destruct (poll_stream_names "depth" (q_disp l) st1.2 Hd H1 H1') as [H2 H2'].
  destruct (poll_stream_names "nn" (q_nn l) st2.2 Hn H2 H2') as [H3 H3'].
  split; [exact H3|]. cbn [snd]. intros msgs Hm.
  specialize (H3' msgs Hm).
  rewrite <- !elem_of_dom, <- size_dom, H3'.
  split; [done|]. split; [done|]. split; [done|]. reflexivity.
Qed.

End LoopSafety.

Section LoopProgress.
Import HostSync Loop.

Lemma iteration_triple_keys_witness :
  let l := {| q_color := [Sample.color_100]; q_disp := [Sample.depth_120];
              q_nn := [Sample.nn_115]; sync := init |} in
  dom (arrays (sync l)) ⊆ stream_names
  ∧ dom (arrays (sync (iteration l).1)) ⊆ stream_names
  ∧ ∀ msgs, (iteration l).2 = Some msgs →
            is_Some (msgs !! "nn") ∧ is_Some (msgs !! "color")
            ∧ is_Some (msgs !! "depth") ∧ size msgs = 3%nat.
Proof.
  cbv zeta.
  assert (dom (arrays init) ⊆ stream_names) as H.
  { simpl. rewrite dom_empty_L. apply empty_subseteq. }
  split; [exact H|].
  exact (iteration_triple_keys
           {| q_color := [Sample.color_100]; q_disp := [Sample.depth_120];
              q_nn := [Sample.nn_115]; sync := init |} H).
Defined.

Lemma poll_keeps_triple name q (st : HostSync.t * option (gmap string Msg)) :
  is_Some st.2 → poll name q st = (q, st).
Proof.
  intros [synced Hs]. rewrite poll_cases.
  destruct st as [s r]; simpl in *; subst r. by destruct q.
Qed.

Lemma poll_pops name q (st : HostSync.t * option (gmap string Msg)) :
  st.2 = None → (poll name q st).1 = tail q.
Proof.
  intros Hs. rewrite poll_cases.
  destruct st as [s r]; simpl in *; subst r. by destruct q.
Qed.

(** X9. An iteration without a triple drains one message per queue.
    When an iteration ends with [msgs] still [False], every queue that
    held data has lost exactly its oldest message: nothing is skipped in
    such an iteration. *)
Theorem iteration_no_triple_pops_all (l : Loop.t) :
  (iteration l).2 = None →
  q_color (iteration l).1 = tail (q_color l)
  ∧ q_disp (iteration l).1 = tail (q_disp l)
  ∧ q_nn (iteration l).1 = tail (q_nn l).
Proof.
  rewrite iteration_polls. cbv zeta. cbn [fst snd q_color q_disp q_nn].
  set (st1 := poll "color" (q_color l) (sync l, None)).
  set (st2 := poll "depth" (q_disp l) st1.2).
  set (st3 := poll "nn" (q_nn l) st2.2).
  intros H3.
  assert (st2.2.2 = None) as H2.
  { destruct (st2.2.2) as [r|] eqn:E; [|done].
    unfold st3 in H3. rewrite poll_keeps_triple in H3 by (by rewrite E).
    cbn [snd] in H3. congruence. }
  assert (st1.2.2 = None) as H1.
  { destruct (st1.2.2) as [r|] eqn:E; [|done].
    unfold st2 in H2. rewrite poll_keeps_triple in H2 by (by rewrite E).
    cbn [snd] in H2. congruence. }
  split; [by apply poll_pops|].
  split; by apply poll_pops.
Qed.

Lemma iteration_no_triple_pops_all_witness :
  let l := {| q_color := [Sample.color_100; Sample.color_118];
              q_disp := []; q_nn := [Sample.nn_115]; sync := init |} in
  (iteration l).2 = None
  ∧ q_color (iteration l).1 = tail (q_color l)
  ∧ q_disp (iteration l).1 = tail (q_disp l)
  ∧ q_nn (iteration l).1 = tail (q_nn l).
Proof.
  cbv zeta.
  assert ((iteration {| q_color := [Sample.color_100; Sample.color_118];
                        q_disp := []; q_nn := [Sample.nn_115];
                        sync := init |}).2 = None) as H
    by (vm_compute; reflexivity).
  split; [exact H|].
  exact (iteration_no_triple_pops_all _ H).
Defined.

End LoopProgress.

(** * Further properties of the frame-rate tracker *)

Section FrameRateAverage.
Import FPSHandler.
Local Open Scope Qc_scope.

Lemma next_iter_last s (ticks : list Qc) (now : Qc) :
  foldl next_iter s (ticks ++ [now])
  = {| timestamp := now; start := start s;
       frame_cnt := S (frame_cnt s + length ticks) |}.
Proof.
  rewrite foldl_snoc. unfold next_iter at 1.
  destruct (next_iter_foldl s ticks) as [-> ->]. done.
Qed.

(** X10. The rate is an average over the whole run.  After at least one
    recorded iteration [fps] depends only on the number of iterations,
    the clock reading of the last one and the second reading of
    [__init__]: it is their count divided by the time from [start] to the
    last iteration, or a division by zero when the two are equal.  The
    readings of the iterations in between play no part. *)
Theorem fps_is_average (now1 now2 : Qc) (ticks : list Qc) (last : Qc) :
  fps (foldl next_iter (init now1 now2) (ticks ++ [last]))
  = if decide (last = now2) then None
    else Some (Qc_of_Z (Z.of_nat (S (length ticks))) / (last - now2)).
Proof.
  rewrite next_iter_last. unfold fps. cbn [timestamp start frame_cnt init].
  assert (last - now2 = 0 ↔ last = now2) as Hz.
  { split; [|intros ->; ring].
    intros H. rewrite <- (Qcplus_0_l now2), <- H. ring. }
  case_decide as E.
  - rewrite decide_True; [done|]. by apply Hz.
  - rewrite decide_False; [done|]. intros ->. apply E. ring.
Qed.

(** X11. Before any iteration.  [__init__] reads the clock twice; when
    the two readings differ, [fps] on the fresh tracker is 0. *)
Theorem fps_fresh (now1 now2 : Qc) :
  now1 ≠ now2 → fps (init now1 now2) = Some 0.
Proof.
  intros Hne. unfold fps. cbn [timestamp start frame_cnt init].
  rewrite decide_False.
  - f_equal. change (Qc_of_Z (Z.of_nat 0)) with (Qc_of_Z 0).
    rewrite Z2Qc_inj_0. unfold Qcdiv. apply Qcmult_0_l.
  - intros H. apply Hne. rewrite <- (Qcplus_0_l now2), <- H. ring.
Qed.

Lemma fps_fresh_witness :
  (1 : Qc) ≠ 2 ∧ fps (init 1 2) = Some 0.
Proof.
  assert ((1 : Qc) ≠ 2) as H by discriminate.
  split; [exact H|]. exact (fps_fresh 1 2 H).
Defined.

End FrameRateAverage.

(** * Further properties of the crop *)

Section CropShape.
Context {A : Type}.
Implicit Types (frame : list (list A)) (row : list A).

(** X12. The height is never touched.  For every frame, wide, square or
    tall, the result has as many rows as the frame. *)
Theorem crop_to_square_height frame :
  shape0 (crop_to_square frame) = shape0 frame.
Proof.
  unfold crop_to_square, shape0. rewrite length_fmap.
  by rewrite py_slice_all.
Qed.

(** X13. Symmetric removal.  On a frame at least as wide as high, with
    [delta = int((width-height)/2)], the pixel in column [c] of a row of
    the result is the pixel in column [c + delta] of the same row of the
    frame, for the [width - 2*delta] columns of the result; the [delta]
    columns at each end are gone. *)
Theorem crop_to_square_pixel h w frame (r c : nat) :
  rectangular h w frame → 0 < h <= w →
  let delta := crop_delta h w in
  at2 (crop_to_square frame) r c
  = if decide (Z.of_nat c < w - 2 * delta)
    then at2 frame r (Z.to_nat delta + c)
    else None.
Proof.
  intros Hrect Hhw delta.
  destruct (crop_to_square_wide h w frame Hrect Hhw) as [-> _]. fold delta.
  unfold at2. rewrite list_lookup_fmap.
  destruct (frame !! r) as [row|]; simpl; [|by case_decide].
  case_decide as Hc.
  - rewrite lookup_take_lt by lia. apply lookup_drop.
  - apply lookup_take_ge. lia.
Qed.

(** X14. Width of the result.  On a frame at least as wide as high the
    result has the height of the frame and a width equal to the height
    when width and height differ by an even number, and one more than the
    height when the difference is odd. *)
Theorem crop_to_square_width h w frame :
  rectangular h w frame → 0 < h <= w →
  rectangular h (h + (w - h) mod 2) (crop_to_square frame).
Proof.
  intros Hrect Hhw.
  destruct (Z.even (w - h)) eqn:Hev.
  - rewrite Zmod_even, Hev, Z.add_0_r. by eapply crop_to_square_even.
  - rewrite Zmod_even, Hev. eapply crop_to_square_odd; [done..|].
    by rewrite <- Z.negb_even, Hev.
Qed.

Lemma crop_to_square_delta_0 h w frame :
  rectangular h w frame → 0 < h <= w → crop_delta h w = 0 →
  crop_to_square frame = frame.
Proof.
  intros Hrect Hhw Hd.
  destruct (crop_to_square_wide h w frame Hrect Hhw) as [-> _].
  rewrite Hd. destruct Hrect as [_ Hrows].
  rewrite <- (list_fmap_id frame) at 2.
  apply Forall_fmap_ext_1. eapply Forall_impl; [exact Hrows|].
  intros row Hrow. cbv beta in *. simpl. rewrite drop_0.
  apply take_ge. lia.
Qed.

(** X15. Cropping twice.  On a frame at least as wide as high a second
    crop changes nothing, whether or not the first one made it square. *)
Theorem crop_to_square_idempotent h w frame :
  rectangular h w frame → 0 < h <= w →
  crop_to_square (crop_to_square frame) = crop_to_square frame.
Proof.
  intros Hrect Hhw.
  destruct (Z.even (w - h)) eqn:Hev.
  - eapply crop_to_square_square. by eapply crop_to_square_even.
  - eapply (crop_to_square_delta_0 h (h + 1)); [|lia|].
    + eapply crop_to_square_odd; [done..|]. by rewrite <- Z.negb_even, Hev.
    + unfold crop_delta. by replace (h + 1 - h) with 1 by lia.
Qed.

(** X16. Tall frames.  On a frame at least two pixels higher than wide,
    [delta] is negative and the slice [delta:width-delta] wraps round:
    with [q = (height - width) quot 2], every row keeps only its last
    [min q width] pixels.  The result has the height of the frame and is
    as a rule not a square. *)
Theorem crop_to_square_tall h w frame :
  rectangular h w frame → 0 <= w → w + 2 <= h →
  let q := Z.quot (h - w) 2 in
  crop_to_square frame = drop (Z.to_nat (Z.max (w - q) 0)) <$> frame
  ∧ rectangular h (Z.min q w) (crop_to_square frame).
Proof.
  intros Hrect Hw Hh q.
  pose proof (rectangular_shape1 _ _ _ Hrect ltac:(lia)) as Hs1.
  destruct Hrect as [Hs0 Hrows].
  assert (crop_delta h w = - q) as Hd.
  { unfold crop_delta, q. rewrite <- Z.quot_opp_l by lia. f_equal. lia. }
  assert (0 < q) as Hq.
  { unfold q. pose proof (Z.quot_le_mono 2 (h - w) 2 ltac:(lia) ltac:(lia)) as H.
    rewrite Z.quot_same in H by lia. lia. }
  assert (crop_to_square frame = drop (Z.to_nat (Z.max (w - q) 0)) <$> frame)
    as Heq.
  { unfold crop_to_square. rewrite Hs1. unfold shape0 in *.
    rewrite py_slice_all. rewrite Hs0, Hd.
    apply Forall_fmap_ext_1. eapply Forall_impl; [exact Hrows|].
    intros row Hrow. cbv beta in *.
    unfold py_slice, slice_bound. rewrite Hrow.
    rewrite (decide_True (P := - q < 0)) by lia.
    rewrite (decide_False (P := w - - q < 0)) by lia.
    replace (- q + w) with (w - q) by lia.
    rewrite Z.min_r by lia.
    apply take_ge. rewrite length_drop. lia. }
  split; [exact Heq|]. rewrite Heq. split.
  - unfold shape0 in *. by rewrite length_fmap.
  - apply Forall_fmap. eapply Forall_impl; [exact Hrows|].
    intros row Hrow. unfold compose. cbv beta in *.
    rewrite length_drop. lia.
Qed.

End CropShape.

Lemma crop_to_square_pixel_witness :
  let frame := [[1; 2; 3; 4; 5]; [6; 7; 8; 9; 10]; [11; 12; 13; 14; 15]] in
  rectangular 3 5 frame ∧ 0 < 3 <= 5
  ∧ at2 (crop_to_square frame) 1 0
    = if decide (Z.of_nat 0 < 5 - 2 * crop_delta 3 5)
      then at2 frame 1 (Z.to_nat (crop_delta 3 5) + 0)
      else None.
Proof.
  cbv zeta.
  assert (rectangular 3 5 [[1; 2; 3; 4; 5]; [6; 7; 8; 9; 10]; [11; 12; 13; 14; 15]])
    as H1 by (split; [reflexivity|repeat constructor]).
  assert (0 < 3 <= 5) as H2 by lia.
  split; [exact H1|]. split; [exact H2|].
  exact (crop_to_square_pixel 3 5 _ 1 0 H1 H2).
Defined.

Lemma crop_to_square_width_witness :
  let frame := [[1; 2; 3; 4; 5]; [6; 7; 8; 9; 10]; [11; 12; 13; 14; 15]] in
  rectangular 3 5 frame ∧ 0 < 3 <= 5
  ∧ rectangular 3 (3 + (5 - 3) mod 2) (crop_to_square frame).
Proof.
  cbv zeta.
  assert (rectangular 3 5 [[1; 2; 3; 4; 5]; [6; 7; 8; 9; 10]; [11; 12; 13; 14; 15]])
    as H1 by (split; [reflexivity|repeat constructor]).
  assert (0 < 3 <= 5) as H2 by lia.
  split; [exact H1|]. split; [exact H2|].
  exact (crop_to_square_width 3 5 _ H1 H2).
Defined.

Lemma crop_to_square_idempotent_witness :
  let frame := [[1; 2; 3; 4]; [5; 6; 7; 8]; [9; 10; 11; 12]] in
  rectangular 3 4 frame ∧ 0 < 3 <= 4
  ∧ crop_to_square (crop_to_square frame) = crop_to_square frame.
Proof.
  cbv zeta.
  assert (rectangular 3 4 [[1; 2; 3; 4]; [5; 6; 7; 8]; [9; 10; 11; 12]])
    as H1 by (split; [reflexivity|repeat constructor]).
  assert (0 < 3 <= 4) as H2 by lia.
  split; [exact H1|]. split; [exact H2|].
  exact (crop_to_square_idempotent 3 4 _ H1 H2).
Defined.

Lemma crop_to_square_tall_witness :
  let frame := [[1; 2]; [3; 4]; [5; 6]; [7; 8]] in
  rectangular 4 2 frame ∧ 0 <= 2 ∧ 2 + 2 <= 4
  ∧ crop_to_square frame
    = drop (Z.to_nat (Z.max (2 - Z.quot (4 - 2) 2) 0)) <$> frame
  ∧ rectangular 4 (Z.min (Z.quot (4 - 2) 2) 2) (crop_to_square frame).
Proof.
  cbv zeta.
  assert (rectangular 4 2 [[1; 2]; [3; 4]; [5; 6]; [7; 8]])
    as H1 by (split; [reflexivity|repeat constructor]).
  assert (0 <= 2) as H2 by lia.
  assert (2 + 2 <= 4) as H3 by lia.
  split; [exact H1|]. split; [exact H2|]. split; [exact H3|].
  exact (crop_to_square_tall 4 2 _ H1 H2 H3).
Defined.

(** * Further properties of the decoder *)

Section DecoderIndexing.

Lemma chunks_lookup rows n flat (r : nat) :
  (r < rows)%nat → chunks rows n flat !! r = Some (take n (drop (r * n) flat)).
Proof.
  revert flat r. induction rows as [|rows IH]; intros flat r Hr; [lia|].
  destruct r as [|r]; simpl; [by rewrite drop_0|].
  rewrite IH by lia. by rewrite drop_drop.
Qed.

Lemma chunks_concat rows n flat :
  length flat = (rows * n)%nat → concat (chunks rows n flat) = flat.
Proof.
  revert flat. induction rows as [|rows IH]; intros flat Hlen; simpl.
  - by destruct flat.
  - rewrite IH; [apply take_drop|]. rewrite length_drop. simpl in Hlen. lia.
Qed.

Lemma chunks_Forall_iff (P : Z → Prop) rows n flat :
  length flat = (rows * n)%nat →
  Forall P flat ↔ Forall (Forall P) (chunks rows n flat).
Proof.
  intros Hlen. rewrite <- Forall_concat. by rewrite chunks_concat.
Qed.

(** A look-up in a table of two rows: the classes -2 .. 1 are accepted,
    the negative ones counting from the end. *)
Lemma np_take_two (table : list (list Z)) v :
  length table = 2%nat →
  (is_Some (np_take table v) ↔ -2 <= v < 2)
  ∧ (-2 <= v < 2 → np_take table v = table !! Z.to_nat (v mod 2)).
Proof.
  intros Htab. unfold np_take. rewrite Htab.
  destruct table as [|c0 [|c1 [|]]]; try discriminate.
  change (Z.of_nat 2) with 2. split.
  - repeat case_decide; split; try lia; try (by intros [? ?]).
    + intros _. assert (v = 0 ∨ v = 1) as [-> | ->] by lia; by eexists.
    + intros _. assert (v = -2 ∨ v = -1) as [-> | ->] by lia; by eexists.
  - intros Hv. repeat case_decide; try lia.
    + by assert (v = 0 ∨ v = 1) as [-> | ->] by lia.
    + by assert (v = -2 ∨ v = -1) as [-> | ->] by lia.
Qed.

(** The common body of the two decoders, for any table of two rows. *)
Lemma take_table_is_Some (table : list (list Z)) nn_shape tensor :
  length table = 2%nat →
  is_Some (output ← reshape nn_shape tensor; mapM (mapM (np_take table)) output)
  ↔ 0 <= nn_shape
    ∧ Z.of_nat (length tensor) = nn_shape * nn_shape
    ∧ Forall (λ v, -2 <= v < 2) tensor.
Proof.
  intros Htab. unfold reshape. case_decide as Hshape; cbn [mbind option_bind].
  - destruct Hshape as [Hn Hlen].
    assert (length tensor = (Z.to_nat nn_shape * Z.to_nat nn_shape)%nat)
      as Hlen' by nia.
    rewrite mapM_is_Some.
    rewrite (chunks_Forall_iff (λ v, -2 <= v < 2) _ _ _ Hlen').
    split.
    + intros H. split; [done|]. split; [done|].
      eapply Forall_impl; [exact H|]. intros row Hrow. unfold compose in Hrow.
      apply mapM_is_Some in Hrow. eapply Forall_impl; [exact Hrow|].
      intros v Hv. by apply (np_take_two table v Htab).
    + intros (_ & _ & H). eapply Forall_impl; [exact H|].
      intros row Hrow. unfold compose. apply mapM_is_Some.
      eapply Forall_impl; [exact Hrow|].
      intros v Hv. by apply (np_take_two table v Htab).
  - split; [by intros [? ?]|]. intros (? & ? & _). by destruct Hshape.
Qed.

Lemma take_table_pixel (table : list (list Z)) nn_shape tensor out (r c : nat) :
  length table = 2%nat →
  (output ← reshape nn_shape tensor; mapM (mapM (np_take table)) output)
  = Some out →
  Z.of_nat r < nn_shape → Z.of_nat c < nn_shape →
  ∃ v, tensor !! (r * Z.to_nat nn_shape + c)%nat = Some v
       ∧ -2 <= v < 2
       ∧ at2 out r c = table !! Z.to_nat (v mod 2).
Proof.
  intros Htab Hout Hr Hc. unfold reshape in Hout.
  case_decide as Hshape; cbn [mbind option_bind] in Hout; [|done].
  destruct Hshape as [Hn Hlen]. apply mapM_Some in Hout.
  set (n := Z.to_nat nn_shape) in *.
  assert (length tensor = (n * n)%nat) as Hlen' by (unfold n; nia).
  assert (chunks n n tensor !! r = Some (take n (drop (r * n) tensor))) as Hrow
    by (apply chunks_lookup; lia).
  destruct (Forall2_lookup_l _ _ _ _ _ Hout Hrow) as (orow & Horow & Hm).
  apply mapM_Some in Hm.
  assert (is_Some (tensor !! (r * n + c)%nat)) as [v Hv].
  { apply lookup_lt_is_Some. nia. }
  assert (take n (drop (r * n) tensor) !! c = Some v) as Hcv.
  { rewrite lookup_take_lt by lia. by rewrite lookup_drop. }
  destruct (Forall2_lookup_l _ _ _ _ _ Hm Hcv) as (p & Hp & Hpv).
  exists v. split; [done|].
  destruct (np_take_two table v Htab) as [Hiff Heq].
  assert (-2 <= v < 2) as Hrange by (apply Hiff; by eexists).
  split; [done|]. unfold at2. rewrite Horow. simpl.
  by rewrite Hp, <- Heq.
Qed.

(** X17. When the decoders fail.  [decode_deeplabv3p] returns an image
    exactly when [nn_shape] is not negative, the tensor has
    [nn_shape * nn_shape] elements and every class index lies in -2 .. 1;
    otherwise the reshape or the table look-up raises.  [get_multiplier]
    succeeds on exactly the same tensors. *)
Theorem decoders_succeed_iff (nn_shape : Z) (tensor : list Z) :
  (is_Some (decode_deeplabv3p nn_shape tensor)
   ↔ 0 <= nn_shape
     ∧ Z.of_nat (length tensor) = nn_shape * nn_shape
     ∧ Forall (λ v, -2 <= v < 2) tensor)
  ∧ (is_Some (get_multiplier nn_shape tensor)
     ↔ is_Some (decode_deeplabv3p nn_shape tensor)).
Proof.
  unfold decode_deeplabv3p, get_multiplier. split.
  - by apply take_table_is_Some.
  - by rewrite !take_table_is_Some.
Qed.

(** X18. Row-major layout and class colours.  Pixel (r, c) of the decoded
    image comes from element [r * nn_shape + c] of the flat tensor: it is
    black for class 0 and green for class 1; the negative indices count
    from the end of the table, so class -1 is green and class -2 black. *)
Theorem decode_deeplabv3p_pixel (nn_shape : Z) (tensor : list Z)
    (colors : list (list (list Z))) (r c : nat) :
  decode_deeplabv3p nn_shape tensor = Some colors →
  Z.of_nat r < nn_shape → Z.of_nat c < nn_shape →
  ∃ v, tensor !! (r * Z.to_nat nn_shape + c)%nat = Some v
       ∧ at2 colors r c
         = Some (if decide (v = 0 ∨ v = -2) then [0; 0; 0] else [0; 255; 0]).
Proof.
  intros Hdec Hr Hc.
  destruct (take_table_pixel class_colors nn_shape tensor colors r c)
    as (v & Hv & Hrange & Hpx); [done..|].
  exists v. split; [done|]. rewrite Hpx.
  assert (v = -2 ∨ v = -1 ∨ v = 0 ∨ v = 1) as [-> | [-> | [-> | ->]]] by lia;
    reflexivity.
Qed.

Lemma decode_deeplabv3p_pixel_witness :
  decode_deeplabv3p 2 [0; 1; -1; -2]
  = Some [[[0; 0; 0]; [0; 255; 0]]; [[0; 255; 0]; [0; 0; 0]]]
  ∧ Z.of_nat 1 < 2 ∧ Z.of_nat 0 < 2
  ∧ ∃ v, [0; 1; -1; -2] !! (1 * Z.to_nat 2 + 0)%nat = Some v
         ∧ at2 [[[0; 0; 0]; [0; 255; 0]]; [[0; 255; 0]; [0; 0; 0]]] 1 0
           = Some (if decide (v = 0 ∨ v = -2) then [0; 0; 0] else [0; 255; 0]).
Proof.
  assert (decode_deeplabv3p 2 [0; 1; -1; -2]
          = Some [[[0; 0; 0]; [0; 255; 0]]; [[0; 255; 0]; [0; 0; 0]]]) as H1
    by (vm_compute; reflexivity).
  assert (Z.of_nat 1 < 2) as H2 by (simpl; lia).
  assert (Z.of_nat 0 < 2) as H3 by (simpl; lia).
  split; [exact H1|]. split; [exact H2|]. split; [exact H3|].
  exact (decode_deeplabv3p_pixel 2 _ _ 1 0 H1 H2 H3).
Defined.

(** X19. The two decoders agree.  On one tensor, wherever the multiplier
    holds [m] the coloured mask holds (0, 255 * m, 0): the multiplier is 1
    exactly on the green pixels and 0 exactly on the black ones. *)
Theorem decoders_agree (nn_shape : Z) (tensor : list Z)
    (colors mask : list (list (list Z))) (r c : nat) :
  decode_deeplabv3p nn_shape tensor = Some colors →
  get_multiplier nn_shape tensor = Some mask →
  Z.of_nat r < nn_shape → Z.of_nat c < nn_shape →
  ∃ m, (m = 0 ∨ m = 1)
       ∧ at2 mask r c = Some [m]
       ∧ at2 colors r c = Some [0; 255 * m; 0].
Proof.
  intros Hdec Hmul Hr Hc.
  destruct (take_table_pixel class_colors nn_shape tensor colors r c)
    as (v & Hv & Hrange & Hpx); [done..|].
  destruct (take_table_pixel class_binary nn_shape tensor mask r c)
    as (v' & Hv' & _ & Hpx'); [done..|].
  rewrite Hv in Hv'. simplify_eq. rewrite Hpx, Hpx'.
  exists (v' mod 2).
  assert (v' = -2 ∨ v' = -1 ∨ v' = 0 ∨ v' = 1) as [-> | [-> | [-> | ->]]] by lia;
    (split; [by (left + right)|split; reflexivity]).
Qed.

Lemma decoders_agree_witness :
  decode_deeplabv3p 2 [0; 1; -1; -2]
  = Some [[[0; 0; 0]; [0; 255; 0]]; [[0; 255; 0]; [0; 0; 0]]]
  ∧ get_multiplier 2 [0; 1; -1; -2] = Some [[[0]; [1]]; [[1]; [0]]]
  ∧ Z.of_nat 0 < 2 ∧ Z.of_nat 1 < 2
  ∧ ∃ m, (m = 0 ∨ m = 1)
         ∧ at2 [[[0]; [1]]; [[1]; [0]]] 0 1 = Some [m]
         ∧ at2 [[[0; 0; 0]; [0; 255; 0]]; [[0; 255; 0]; [0; 0; 0]]] 0 1
           = Some [0; 255 * m; 0].
Proof.
  assert (decode_deeplabv3p 2 [0; 1; -1; -2]
          = Some [[[0; 0; 0]; [0; 255; 0]]; [[0; 255; 0]; [0; 0; 0]]]) as H1
    by (vm_compute; reflexivity).
  assert (get_multiplier 2 [0; 1; -1; -2] = Some [[[0]; [1]]; [[1]; [0]]]) as H2
    by (vm_compute; reflexivity).
  assert (Z.of_nat 0 < 2) as H3 by (simpl; lia).
  assert (Z.of_nat 1 < 2) as H4 by (simpl; lia).
  split; [exact H1|]. split; [exact H2|]. split; [exact H3|]. split; [exact H4|].
  exact (decoders_agree 2 _ _ _ 0 1 H1 H2 H3 H4).
Defined.

End DecoderIndexing.

(** * Further properties of the colour map and the cutout *)

Section Palette.
Variable nn_shape : Z.
Variable COLORMAP_JET : Z → list Z.
Variable cv2_resize : list (list (list Z)) → list (list Z).

Lemma jet_custom_lookup v :
  0 <= v < 256 →
  jet_custom COLORMAP_JET !! Z.to_nat v
  = Some (if decide (v = 0) then [0; 0; 0] else COLORMAP_JET v).
Proof.
  intros Hv. case_decide as Hz.
  - subst v. apply jet_custom_0.
  - unfold jet_custom. rewrite list_lookup_insert_ne by lia.
    rewrite list_lookup_fmap, lookup_seqZ_lt by lia.
    simpl. do 2 f_equal. lia.
Qed.

(** X20. The depth panel.  The palette has 256 entries; applied to an
    8-bit frame it gives black where the value is 0 and the JET colour of
    the value everywhere else: only level 0 is overridden. *)
Theorem depth_panel_pixel (src : list (list Z)) (x y : nat) (v : Z) :
  at2 src x y = Some v → 0 <= v < 256 →
  length (jet_custom COLORMAP_JET) = 256%nat
  ∧ at2 (applyColorMap src (jet_custom COLORMAP_JET)) x y
    = Some (if decide (v = 0) then [0; 0; 0] else COLORMAP_JET v).
Proof.
  intros Hsrc Hv. split.
  - unfold jet_custom. by rewrite length_insert, length_fmap, length_seqZ.
  - rewrite at2_applyColorMap, Hsrc. cbn [fmap option_fmap option_map].
    by rewrite jet_custom_lookup.
Qed.

(** X21. Invalid disparity stays black.  Where the resized disparity is 0
    the cutout panel is black whatever value the resized mask has there;
    in general its pixel is the palette entry of the product of disparity
    and mask taken modulo 256. *)
Theorem cutout_pixel (lay1 : list Z) (disp_frame : list (list Z))
    (multiplier : list (list (list Z))) (x y : nat) (d m : Z) :
  get_multiplier nn_shape lay1 = Some multiplier →
  at2 disp_frame x y = Some d →
  at2 (cv2_resize multiplier) x y = Some m →
  ∃ panel,
    cutout nn_shape COLORMAP_JET cv2_resize lay1 disp_frame = Some panel
    ∧ at2 panel x y
      = Some (if decide ((d * m) mod 256 = 0) then [0; 0; 0]
              else COLORMAP_JET ((d * m) mod 256))
    ∧ (d = 0 → at2 panel x y = Some [0; 0; 0]).
Proof.
  intros Hmul Hd Hm. unfold cutout. rewrite Hmul. cbn [mbind option_bind].
  eexists. split; [reflexivity|].
  rewrite at2_applyColorMap, at2_mul_uint8, Hd, Hm.
  cbn [mbind option_bind fmap option_fmap option_map].
  pose proof (Z.mod_pos_bound (d * m) 256 ltac:(lia)) as Hb.
  rewrite jet_custom_lookup by done. split; [done|].
  intros ->. rewrite Z.mul_0_l. reflexivity.
Qed.

End Palette.

Lemma depth_panel_pixel_witness :
  let jet := λ v : Z, [v; 0; 255 - v] in
  at2 [[5; 6]; [0; 8]] 0 1 = Some 6 ∧ 0 <= 6 < 256
  ∧ length (jet_custom jet) = 256%nat
  ∧ at2 (applyColorMap [[5; 6]; [0; 8]] (jet_custom jet)) 0 1
    = Some (if decide (6 = 0) then [0; 0; 0] else jet 6).
Proof.
  cbv zeta.
  assert (at2 [[5; 6]; [0; 8]] 0 1 = Some 6) as H1 by reflexivity.
  assert (0 <= 6 < 256) as H2 by lia.
  split; [exact H1|]. split; [exact H2|].
  exact (depth_panel_pixel (λ v : Z, [v; 0; 255 - v]) _ 0 1 6 H1 H2).
Defined.

Lemma cutout_pixel_witness :
  let jet := λ v : Z, [v; 0; 255 - v] in
  let resize := λ m : list (list (list Z)),
                  (λ row : list (list Z), (λ p : list Z, default 0 (head p)) <$> row) <$> m in
  get_multiplier 2 [0; 1; 1; 0] = Some [[[0]; [1]]; [[1]; [0]]]
  ∧ at2 [[5; 6]; [0; 8]] 1 0 = Some 0
  ∧ at2 (resize [[[0]; [1]]; [[1]; [0]]]) 1 0 = Some 1
  ∧ ∃ panel,
      cutout 2 jet resize [0; 1; 1; 0] [[5; 6]; [0; 8]] = Some panel
      ∧ at2 panel 1 0
        = Some (if decide ((0 * 1) mod 256 = 0) then [0; 0; 0]
                else jet ((0 * 1) mod 256))
      ∧ (0 = 0 → at2 panel 1 0 = Some [0; 0; 0]).
Proof.
  cbv zeta.
  assert (get_multiplier 2 [0; 1; 1; 0] = Some [[[0]; [1]]; [[1]; [0]]]) as H1
    by (vm_compute; reflexivity).
  assert (at2 [[5; 6]; [0; 8]] 1 0 = Some 0) as H2 by reflexivity.
  assert (at2 ((λ m : list (list (list Z)),
                  (λ row : list (list Z), (λ p : list Z, default 0 (head p)) <$> row) <$> m)
                 [[[0]; [1]]; [[1]; [0]]]) 1 0 = Some 1) as H3 by reflexivity.
  split; [exact H1|]. split; [exact H2|]. split; [exact H3|].
  exact (cutout_pixel 2 (λ v : Z, [v; 0; 255 - v]) _ _ _ _ 1 0 0 1 H1 H2 H3).
Defined.
